(** * ai-tracking: the track aggregation engine of [tracking/tracking.py]

    A shallow embedding of [TrackedObject] and [Tracker] and the properties
    of the track records they maintain.

    - Python exceptions are values of [result]; a loop that raises keeps the
      mutations made before the exception, as Python does.
    - [float] is modelled by [pyfloat]: a rational or one of the three
      non-finite values.  Arithmetic on finite values is exact rational
      arithmetic; [int()] truncates toward zero and raises on the non-finite
      values.  The only float products of the code scale a normalized
      coordinate, read from a single-precision tensor, by a frame dimension,
      and such a product is exact in double precision.
    - [self.tracked_objects] is a [defaultdict]; it is a [gmap] from track ids
      to records, and [getitem] inserts a fresh record for a missing key.
    - [predicted_types] is a [defaultdict(int)] whose iteration order is the
      insertion order; it is an association list in that order.
    - [datetime.now()] reads the local wall clock; the clock is a function
      from the number of readings made so far to the reading.
    - The class attributes [MAX_POINTS] and [FRAMES_COUNT] are natural
      numbers held in [Settings].
    - The detector ([self.model.track]), the rendering of the detector's
      answer ([results[0].plot()], line 94) and the drawing done under
      [SHOW_PREDS] ([cv2.polylines], [cv2.imshow], the [points] getter that
      feeds them) are outside the embedding: [track_next_frame] receives the
      detector's [Results] as an argument, takes the rendering to return,
      and returns the state and the exception the loop raises, if any. *)

From Stdlib Require Import ZArith QArith List String Ascii Lia Bool.
From stdpp Require Import gmap strings list fin_maps pretty.

Open Scope nat_scope.

(** ** Python values *)

Inductive exn : Type :=
| ValueError
| OverflowError
| KeyError
| IndexError.

Inductive result (A : Type) : Type :=
| Ok (a : A)
| Raise (e : exn).
Arguments Ok {A} a.
Arguments Raise {A} e.

#[global] Instance result_ret : MRet result := fun A a => Ok a.
#[global] Instance result_bind : MBind result := fun A B f m =>
  match m with
  | Ok a => f a
  | Raise e => Raise e
  end.

(** [float]: finite values and [inf], [-inf], [nan]. *)
Inductive pyfloat : Type :=
| Fin (q : Q)
| PInf
| NInf
| NaN.

(** [f * n] for a float [f] and a non-negative [int] [n], as the exact
    product.  The product of the code is rounded to a double: the two agree
    on the coordinates the loop passes, which come from a single-precision
    tensor, for dimensions below 2^29; a product beyond the range of a
    double, which the code turns into [inf], is not modelled. *)
Definition fmul_nat (f : pyfloat) (n : nat) : pyfloat :=
  match f with
  | Fin q => Fin (q * inject_Z (Z.of_nat n))%Q
  | PInf => if Nat.eqb n 0 then NaN else PInf
  | NInf => if Nat.eqb n 0 then NaN else NInf
  | NaN => NaN
  end.

(** Truncation toward zero of a rational. *)
Definition truncQ (q : Q) : Z := Z.quot (Qnum q) (Zpos (Qden q)).

(** [int(f)]: [ValueError] on [nan], [OverflowError] on an infinity. *)
Definition py_int (f : pyfloat) : result Z :=
  match f with
  | Fin q => Ok (truncQ q)
  | PInf | NInf => Raise OverflowError
  | NaN => Raise ValueError
  end.

(** [a - b / 2] for two [int]s: true division, then a float subtraction. *)
Definition int_sub_half (a b : Z) : pyfloat :=
  Fin (inject_Z a - inject_Z b / 2)%Q.

(** ** Images and slicing *)

(** A frame: [shape[:2]] and the rows of pixels. *)
Record Image : Type := mkImage {
  height : nat;
  width : nat;
  pixels : list (list Z)
}.

(** A slice bound as Python resolves it against a length: a negative bound
    counts from the end, and the result is clipped to [0..len]. *)
Definition slice_bound (i : Z) (len : nat) : nat :=
  if (i <? 0)%Z then Z.to_nat (Z.max 0 (i + Z.of_nat len))
  else Z.to_nat (Z.min i (Z.of_nat len)).

(** [l[start:stop]]. *)
Definition py_slice {A : Type} (l : list A) (start stop : Z) : list A :=
  let a := slice_bound start (List.length l) in
  let b := slice_bound stop (List.length l) in
  firstn (b - a) (skipn a l).

(** [image[y0:y1, x0:x1]]. *)
Definition slice2 (image : Image) (y0 y1 x0 x1 : Z) : Image :=
  let ya := slice_bound y0 (height image) in
  let yb := slice_bound y1 (height image) in
  let xa := slice_bound x0 (width image) in
  let xb := slice_bound x1 (width image) in
  {| height := yb - ya;
     width := xb - xa;
     pixels := List.map (fun row => py_slice row x0 x1) (py_slice (pixels image) y0 y1) |}.

(** A normalized box [(x_center, y_center, w, h)]. *)
Definition bbox : Type := pyfloat * pyfloat * pyfloat * pyfloat.

(** The rectangle [(x, y, x + w, y + h)] that [crop_image_with_bbox] slices
    out of a frame of the given height and width. *)
Definition crop_rect (original_height original_width : nat) (b : bbox)
  : result (Z * Z * Z * Z) :=
  let '(x_center, y_center, w, h) := b in
  x_center ← py_int (fmul_nat x_center original_width);
  y_center ← py_int (fmul_nat y_center original_height);
  w ← py_int (fmul_nat w original_width);
  h ← py_int (fmul_nat h original_height);
  x ← py_int (int_sub_half x_center w);
  y ← py_int (int_sub_half y_center h);
  Ok (x, y, (x + w)%Z, (y + h)%Z).

(** [Tracker.crop_image_with_bbox]. *)
Definition crop_image_with_bbox (image : Image) (b : bbox) : result Image :=
  '(x, y, x1, y1) ← crop_rect (height image) (width image) b;
  Ok (slice2 image y y1 x x1).

(** ** The wall clock *)

(** A naive local [datetime], as [datetime.now()] returns it. *)
Record datetime : Type := mkDatetime {
  year : nat;
  month : nat;
  day : nat;
  hour : nat;
  minute : nat;
  second : nat
}.

Definition digit (n : nat) : ascii := ascii_of_nat (48 + n mod 10).

(** A field printed on two or four digits with leading zeros. *)
Definition pad2 (n : nat) : string :=
  String (digit (n / 10)) (String (digit n) EmptyString).
Definition pad4 (n : nat) : string :=
  String (digit (n / 1000)) (String (digit (n / 100)) (pad2 n)).

(** [d.strftime("%d.%m.%Y %H:%M:%S")]. *)
Definition strftime (d : datetime) : string :=
  pad2 (day d) +:+ "." +:+ pad2 (month d) +:+ "." +:+ pad4 (year d) +:+ " " +:+
  pad2 (hour d) +:+ ":" +:+ pad2 (minute d) +:+ ":" +:+ pad2 (second d).

(** Chronological order of two readings: lexicographic on the fields from
    the year down to the second. *)
Fixpoint lex_leb (a b : list nat) : bool :=
  match a, b with
  | [], _ => true
  | _ :: _, [] => false
  | x :: a', y :: b' => (x <? y) || ((x =? y) && lex_leb a' b')
  end.

Definition dt_fields (d : datetime) : list nat :=
  [year d; month d; day d; hour d; minute d; second d].

Definition dt_leb (d1 d2 : datetime) : bool := lex_leb (dt_fields d1) (dt_fields d2).

(** The order of [str] values, which is what [<=] computes on the stored
    timestamps. *)
Definition str_leb (s1 s2 : string) : bool := String.leb s1 s2.

(** The reading returned by the [n]-th call of [datetime.now()]. *)
Definition clock : Type := nat -> datetime.

(** ** TrackedObject *)

Definition point : Type := pyfloat * pyfloat.

Record TrackedObject : Type := mkTrackedObject {
  tracked_points : list point;
  predicted_types : list (string * nat);
  first_detection : option string;
  last_detection : option string;
  cropped_frame : option Image
}.

(** [TrackedObject.__init__]. *)
Definition TrackedObject_init : TrackedObject :=
  {| tracked_points := [];
     predicted_types := [];
     first_detection := None;
     last_detection := None;
     cropped_frame := None |}.

(** [TrackedObject.detect]; [n] counts the calls of [datetime.now()] made so
    far and is returned advanced. *)
Definition detect (clk : clock) (n : nat) (t : TrackedObject) : TrackedObject * nat :=
  match first_detection t with
  | None =>
      ({| tracked_points := tracked_points t;
          predicted_types := predicted_types t;
          first_detection := Some (strftime (clk n));
          last_detection := Some (strftime (clk (S n)));
          cropped_frame := cropped_frame t |}, S (S n))
  | Some _ =>
      ({| tracked_points := tracked_points t;
          predicted_types := predicted_types t;
          first_detection := first_detection t;
          last_detection := Some (strftime (clk n));
          cropped_frame := cropped_frame t |}, S n)
  end.

(** [d[k]] for a key of the vote ledger (0 is the [int] default). *)
Fixpoint votes_get (d : list (string * nat)) (k : string) : nat :=
  match d with
  | [] => 0
  | (k', n) :: d' => if String.eqb k k' then n else votes_get d' k
  end.

(** [d[k] += 1] on a [defaultdict(int)]: a new key goes last. *)
Fixpoint votes_incr (d : list (string * nat)) (k : string) : list (string * nat) :=
  match d with
  | [] => [(k, 1)]
  | (k', n) :: d' =>
      if String.eqb k k' then (k', S n) :: d' else (k', n) :: votes_incr d' k
  end.

(** [max(iterable, key=...)]: the first item whose key is maximal;
    [ValueError] on an empty iterable. *)
Fixpoint max_from {A : Type} (key : A -> nat) (best : A) (l : list A) : A :=
  match l with
  | [] => best
  | x :: l' => if key best <? key x then max_from key x l' else max_from key best l'
  end.

Definition py_max {A : Type} (key : A -> nat) (l : list A) : result A :=
  match l with
  | [] => Raise ValueError
  | x :: l' => Ok (max_from key x l')
  end.

(** [TrackedObject.type]. *)
Definition type (t : TrackedObject) : result string :=
  py_max (fun x => votes_get (predicted_types t) x) (List.map fst (predicted_types t)).

(** [sum(d.values())]. *)
Fixpoint votes_total (d : list (string * nat)) : nat :=
  match d with
  | [] => 0
  | (_, n) :: d' => n + votes_total d'
  end.

(** [TrackedObject.__len__]. *)
Definition __len__ (t : TrackedObject) : nat :=
  match tracked_points t with
  | [] => 0
  | _ :: _ => votes_total (predicted_types t)
  end.

(** The getter of [TrackedObject.points]:
    [np.hstack(self.tracked_points).astype(np.int32).reshape((-1, 1, 2))].
    [np.hstack] raises [ValueError] on an empty list; otherwise the array has
    one row [(x, y)] per point, each coordinate cast to a 32-bit integer.
    The cast is numpy's and is taken as the parameter [cast]. *)
Definition points (cast : pyfloat -> Z) (t : TrackedObject) : result (list (Z * Z)) :=
  match tracked_points t with
  | [] => Raise ValueError
  | _ :: _ => Ok (List.map (fun p => (cast (fst p), cast (snd p))) (tracked_points t))
  end.

(** [str(v)] for a field that is [None] or a string. *)
Definition str_of_field (v : option string) : string :=
  match v with
  | Some s => s
  | None => "None"
  end.

(** [TrackedObject.__str__]: the f-string reads the two timestamps, then
    [self.type], then [len(self.points)]. *)
Definition __str__ (cast : pyfloat -> Z) (t : TrackedObject) : result string :=
  ty ← type t;
  pts ← points cast t;
  Ok ("(" +:+ str_of_field (first_detection t) +:+ ") - (" +:+
      str_of_field (last_detection t) +:+ "): " +:+ ty +:+
      "(count=" +:+ pretty (List.length pts) +:+ ") ").

(** [TrackedObject.__repr__]. *)
Definition __repr__ (t : TrackedObject) : result string :=
  ty ← type t;
  Ok ("TrackedObject<" +:+ ty +:+ ">").

(** [l.pop(0)]: [IndexError] on an empty list. *)
Definition pop0 {A : Type} (l : list A) : result (list A) :=
  match l with
  | [] => Raise IndexError
  | _ :: l' => Ok l'
  end.

(** The class attributes that configure the tracker. *)
Record Settings : Type := mkSettings {
  MAX_POINTS : nat;
  FRAMES_COUNT : nat
}.

Definition default_settings : Settings := {| MAX_POINTS := 90; FRAMES_COUNT := 10 |}.

(** [TrackedObject.set_max_points_count]. *)
Definition set_max_points_count (cfg : Settings) (value : nat) : Settings :=
  {| MAX_POINTS := value; FRAMES_COUNT := FRAMES_COUNT cfg |}.

(** The setter of [TrackedObject.points] on the list of points. *)
Definition points_append (cfg : Settings) (pts : list point) (value : point)
  : result (list point) :=
  pts' ← (if MAX_POINTS cfg <? List.length pts then pop0 pts else Ok pts);
  Ok (pts' ++ [value]).

Definition with_points (t : TrackedObject) (pts : list point) : TrackedObject :=
  {| tracked_points := pts;
     predicted_types := predicted_types t;
     first_detection := first_detection t;
     last_detection := last_detection t;
     cropped_frame := cropped_frame t |}.

Definition with_votes (t : TrackedObject) (d : list (string * nat)) : TrackedObject :=
  {| tracked_points := tracked_points t;
     predicted_types := d;
     first_detection := first_detection t;
     last_detection := last_detection t;
     cropped_frame := cropped_frame t |}.

Definition with_cropped_frame (t : TrackedObject) (img : Image) : TrackedObject :=
  {| tracked_points := tracked_points t;
     predicted_types := predicted_types t;
     first_detection := first_detection t;
     last_detection := last_detection t;
     cropped_frame := Some img |}.

(** ** Tracker *)

(** One detected box: pixel and normalized [(x, y, w, h)], and the class. *)
Record Box : Type := mkBox {
  xywh : pyfloat * pyfloat * pyfloat * pyfloat;
  xywhn : bbox;
  cls : nat
}.

(** What the detector returns for a frame: the boxes, their track ids
    ([None] when nothing is tracked) and the dict of class names. *)
Record Results : Type := mkResults {
  boxes : list Box;
  boxes_id : option (list Z);
  names : list (nat * string)
}.

(** [names[i]]. *)
Fixpoint names_get (d : list (nat * string)) (i : nat) : result string :=
  match d with
  | [] => Raise KeyError
  | (j, s) :: d' => if Nat.eqb i j then Ok s else names_get d' i
  end.

(** [zip(a, b, c)]: as long as the shortest of the three. *)
Fixpoint zip3 {A B C : Type} (a : list A) (b : list B) (c : list C) : list (A * B * C) :=
  match a, b, c with
  | x :: a', y :: b', z :: c' => (x, y, z) :: zip3 a' b' c'
  | _, _, _ => []
  end.

(** The tracker's mutable state, with the number of clock readings made. *)
Record State : Type := mkState {
  tracked_objects : gmap Z TrackedObject;
  now_calls : nat
}.

(** [Tracker.__init__]. *)
Definition Tracker_init : State := {| tracked_objects := ∅; now_calls := 0 |}.

(** [d[key]] on [defaultdict(lambda: TrackedObject())]. *)
Definition getitem (d : gmap Z TrackedObject) (key : Z) : TrackedObject * gmap Z TrackedObject :=
  match d !! key with
  | Some t => (t, d)
  | None => (TrackedObject_init, <[key := TrackedObject_init]> d)
  end.

(** The snapshot gate of the loop body (lines 100-101). *)
Definition capture (cfg : Settings) (frame : Image) (box : Box) (track : TrackedObject)
  : result TrackedObject :=
  match cropped_frame track with
  | None =>
      if FRAMES_COUNT cfg <? __len__ track
      then img ← crop_image_with_bbox frame (xywhn box); Ok (with_cropped_frame track img)
      else Ok track
  | Some _ => Ok track
  end.

(** The loop body of [track_next_frame] on the record [track] fetched for
    the box: the record as the body leaves it, the clock count, and the
    exception if one is raised. *)
Definition observe (cfg : Settings) (clk : clock) (frame : Image)
    (nms : list (nat * string)) (box : Box) (n : nat) (track : TrackedObject)
  : TrackedObject * nat * option exn :=
  let '(x, y, _, _) := xywh box in
  let '(track, n) := detect clk n track in
  match capture cfg frame box track with
  | Raise e => (track, n, Some e)
  | Ok track =>
      match names_get nms (cls box) with
      | Raise e => (track, n, Some e)
      | Ok label =>
          let track := with_votes track (votes_incr (predicted_types track) label) in
          match points_append cfg (tracked_points track) (x, y) with
          | Raise e => (track, n, Some e)
          | Ok pts => (with_points track pts, n, None)
          end
      end
  end.

(** One iteration of the loop: [track] aliases the record stored under
    [track_id], so the store holds the record as the body leaves it. *)
Definition step (cfg : Settings) (clk : clock) (frame : Image)
    (nms : list (nat * string)) (st : State) (ev : Box * Z * (nat * string))
  : State * option exn :=
  let '(box, track_id, _) := ev in
  let '(track, objs) := getitem (tracked_objects st) track_id in
  let '(track, n, e) := observe cfg clk frame nms box (now_calls st) track in
  ({| tracked_objects := <[track_id := track]> objs; now_calls := n |}, e).

Fixpoint run_loop (cfg : Settings) (clk : clock) (frame : Image)
    (nms : list (nat * string)) (st : State) (evs : list (Box * Z * (nat * string)))
  : State * option exn :=
  match evs with
  | [] => (st, None)
  | ev :: evs' =>
      match step cfg clk frame nms st ev with
      | (st', None) => run_loop cfg clk frame nms st' evs'
      | (st', Some e) => (st', Some e)
      end
  end.

(** [Tracker.track_next_frame], given the detector's answer for the frame. *)
Definition track_next_frame (cfg : Settings) (clk : clock) (frame : Image)
    (results : Results) (st : State) : State * option exn :=
  match boxes_id results with
  | None => (st, None)
  | Some track_ids =>
      run_loop cfg clk frame (names results) st
        (zip3 (boxes results) track_ids (names results))
  end.

(** [Tracker.track_video] on the frames the capture delivers, each with the
    detector's answer for it; an exception ends the loop. *)
Definition track_video (cfg : Settings) (clk : clock) (video : list (Image * Results))
    (st : State) : State * option exn :=
  fold_left (fun acc fr =>
               match acc with
               | (st', None) => track_next_frame cfg clk (fst fr) (snd fr) st'
               | (st', Some e) => (st', Some e)
               end) video (st, None).

(** The filter of [get_objects]: [len(self.tracked_objects.get(x)) >
    self.FRAMES_COUNT].  The keys tested are those of the store, so [.get]
    never answers [None]. *)
Definition confirmed (cfg : Settings) (d : gmap Z TrackedObject) (x : Z) : bool :=
  match d !! x with
  | Some t => FRAMES_COUNT cfg <? __len__ t
  | None => false
  end.

(** [Tracker.get_objects]: the keys are filtered, then each kept key is read
    with [self.tracked_objects[key]]; the store is threaded through the
    reads and returned with the answer. *)
Definition get_objects (cfg : Settings) (d : gmap Z TrackedObject)
  : gmap Z TrackedObject * gmap Z TrackedObject :=
  foldl (fun '(d', out) key => let '(t, d'') := getitem d' key in (d'', <[key := t]> out))
        (d, ∅)
        (List.filter (confirmed cfg d) (elements (dom d))).

(** ** Notions used to state the properties *)

(** A coordinate in [0,1], and a box with all four of them there. *)
Definition in_unit (f : pyfloat) : Prop :=
  match f with
  | Fin q => (0 <= q)%Q /\ (q <= 1)%Q
  | _ => False
  end.

Definition bbox_in_unit (b : bbox) : Prop :=
  let '(xc, yc, w, h) := b in in_unit xc /\ in_unit yc /\ in_unit w /\ in_unit h.

(** A box that does not extend past the frame along one axis: centre [c],
    extent [e], with [c - e/2 >= 0] and [c + e/2 <= 1]. *)
Definition box_inside (c e : pyfloat) : Prop :=
  match c, e with
  | Fin c, Fin e => (e / 2 <= c)%Q /\ (c + e / 2 <= 1)%Q
  | _, _ => False
  end.

Definition bbox_inside (b : bbox) : Prop :=
  let '(xc, yc, w, h) := b in box_inside xc w /\ box_inside yc h.

(** A box whose four coordinates are finite. *)
Definition bbox_finite (b : bbox) : Prop :=
  let '(xc, yc, w, h) := b in
  (exists q, xc = Fin q) /\ (exists q, yc = Fin q) /\ (exists q, w = Fin q) /\ (exists q, h = Fin q).

(** The decimal [a / b] as a float. *)
Definition dec (a : Z) (b : positive) : pyfloat := Fin (Qmake a b).

(** The boxes [(0.5, 0.5, 1.0, 1.0)] and [(0.02, 0.02, 0.2, 0.2)], the
    coordinates taken as the decimals written. *)
Definition full_bbox : bbox := (dec 1 2, dec 1 2, dec 1 1, dec 1 1).
Definition corner_bbox : bbox := (dec 1 50, dec 1 50, dec 1 5, dec 1 5).

(** A frame of the given shape, every pixel [v]. *)
Definition blank (h w : nat) (v : Z) : Image :=
  {| height := h; width := w; pixels := repeat (repeat v w) h |}.

(** The ledger after the labels [labels] were voted in that order. *)
Definition votes_of (labels : list string) : list (string * nat) :=
  fold_left votes_incr labels [].

(** How often [l] occurs in a label sequence, and the position of its
    first occurrence. *)
Fixpoint occurrences (l : string) (ls : list string) : nat :=
  match ls with
  | [] => 0
  | a :: ls' => (if String.eqb l a then 1 else 0) + occurrences l ls'
  end.

Fixpoint first_index (l : string) (ls : list string) : nat :=
  match ls with
  | [] => 0
  | a :: ls' => if String.eqb l a then 0 else S (first_index l ls')
  end.

(** [d.keys()]. *)
Definition keys (d : list (string * nat)) : list string := List.map fst d.

(** A record whose ledger received the labels [ls]. *)
Definition record_of_labels (ls : list string) : TrackedObject :=
  with_votes TrackedObject_init (votes_of ls).

(** The states the tracker can be in: the initial one, and the one after
    any pass of the loop body of [track_next_frame], raising or not. *)
Inductive reachable (cfg : Settings) (clk : clock) : State -> Prop :=
| reachable_init : reachable cfg clk Tracker_init
| reachable_step st frame nms ev :
    reachable cfg clk st -> reachable cfg clk (fst (step cfg clk frame nms st ev)).

(** The record of an identity, the fresh record when it has none yet. *)
Definition record_at (st : State) (id : Z) : TrackedObject :=
  default TrackedObject_init (tracked_objects st !! id).

Definition votes_at (st : State) (id : Z) : nat :=
  votes_total (predicted_types (record_at st id)).

(** A record with votes has points. *)
Definition consistent (t : TrackedObject) : Prop :=
  tracked_points t = [] -> predicted_types t = [].

(** Both timestamps are readings of the clock, the first no later in the
    sequence of readings than the last. *)
Definition stamped (clk : clock) (n : nat) (t : TrackedObject) : Prop :=
  exists i j, i <= j /\ j < n /\
    first_detection t = Some (strftime (clk i)) /\
    last_detection t = Some (strftime (clk j)).

Definition unstamped (t : TrackedObject) : Prop :=
  first_detection t = None /\ last_detection t = None.

(** The three ways the loop body ends. *)
Inductive observed (cfg : Settings) (clk : clock) (frame : Image)
    (nms : list (nat * string)) (box : Box) (n : nat) (t : TrackedObject)
  : TrackedObject * nat * option exn -> Prop :=
| observed_crop_raises e :
    capture cfg frame box (fst (detect clk n t)) = Raise e ->
    observed cfg clk frame nms box n t (fst (detect clk n t), snd (detect clk n t), Some e)
| observed_name_raises t2 e :
    capture cfg frame box (fst (detect clk n t)) = Ok t2 ->
    names_get nms (cls box) = Raise e ->
    observed cfg clk frame nms box n t (t2, snd (detect clk n t), Some e)
| observed_done t2 label :
    capture cfg frame box (fst (detect clk n t)) = Ok t2 ->
    names_get nms (cls box) = Ok label ->
    observed cfg clk frame nms box n t
      (with_points (with_votes t2 (votes_incr (predicted_types t2) label))
         ((if MAX_POINTS cfg <? List.length (tracked_points t2)
           then tl (tracked_points t2) else tracked_points t2)
          ++ [(fst (fst (fst (xywh box))), snd (fst (fst (xywh box))))]),
       snd (detect clk n t), None).

(** What holds of every record of a reachable state. *)
Definition invariant (cfg : Settings) (clk : clock) (st : State) : Prop :=
  forall id t, tracked_objects st !! id = Some t ->
    consistent t /\ stamped clk (now_calls st) t /\
    List.length (tracked_points t) <= S (MAX_POINTS cfg).

(** Inputs of the examples: one car tracked under identity 1, seen in a
    100x100 frame, and a video showing it in [k] frames. *)
Definition car_box : Box :=
  {| xywh := (dec 50 1, dec 50 1, dec 10 1, dec 10 1);
     xywhn := (dec 1 2, dec 1 2, dec 1 10, dec 1 10);
     cls := 2 |}.

Definition class_names : list (nat * string) :=
  [(0, "person"); (1, "bicycle"); (2, "car"); (3, "motorcycle"); (7, "truck")].

Definition one_car : Results :=
  {| boxes := [car_box]; boxes_id := Some [1%Z]; names := class_names |}.

Definition car_video (k : nat) : list (Image * Results) :=
  repeat (blank 100 100 7, one_car) k.

(** A clock that stays within one second from its 59th reading on, and a
    local clock set back by an hour (the end of daylight saving time)
    after its second reading. *)
Definition clock_steady : clock := fun n => mkDatetime 2026 11 3 10 30 (Nat.min n 59).

Definition clock_set_back : clock := fun n =>
  if n <? 2 then mkDatetime 2026 10 25 2 59 59 else mkDatetime 2026 10 25 2 0 0.

(** The identity and the box of an item of the zip. *)
Definition ev_id (ev : Box * Z * (nat * string)) : Z := snd (fst ev).
Definition ev_box (ev : Box * Z * (nat * string)) : Box := fst (fst ev).

(** An event the loop body cannot raise on: a finite box and a class that
    has a name. *)
Definition applicable (nms : list (nat * string)) (box : Box) : Prop :=
  bbox_finite (xywhn box) /\ exists label, names_get nms (cls box) = Ok label.

(** A malformed event: the box is centred at 1.5, outside [0,1], and its
    class has the empty label. *)
Definition odd_box : Box :=
  {| xywh := (dec 150 1, dec 50 1, dec 20 1, dec 20 1);
     xywhn := (dec 3 2, dec 1 2, dec 1 5, dec 1 5);
     cls := 9 |}.

Definition odd_names : list (nat * string) := class_names ++ [(9, EmptyString)].

Definition odd_batch : Results :=
  {| boxes := [odd_box; car_box]; boxes_id := Some [5%Z; 1%Z]; names := odd_names |}.

(** The setter of [points] applied to each point of [ps] in turn. *)
Fixpoint points_extend (cfg : Settings) (pts : list point) (ps : list point)
  : result (list point) :=
  match ps with
  | [] => Ok pts
  | p :: ps' => pts' ← points_append cfg pts p; points_extend cfg pts' ps'
  end.

(** An image whose rows and columns are as many as its shape says. *)
Definition well_formed (img : Image) : Prop :=
  List.length (pixels img) = height img /\
  List.Forall (fun row => List.length row = width img) (pixels img).

(** The detector's answer cut to its first [n] boxes and track ids. *)
Definition truncate_results (n : nat) (results : Results) : Results :=
  {| boxes := firstn n (boxes results);
     boxes_id := option_map (firstn n) (boxes_id results);
     names := names results |}.

(** A car and a person seen in the same frame, under identities 1 and 2. *)
Definition person_box : Box :=
  {| xywh := (dec 20 1, dec 30 1, dec 10 1, dec 40 1);
     xywhn := (dec 1 5, dec 3 10, dec 1 10, dec 2 5);
     cls := 0 |}.

Definition car_and_person : Results :=
  {| boxes := [car_box; person_box]; boxes_id := Some [1%Z; 2%Z]; names := class_names |}.

(** A box whose class has no name in [class_names]. *)
Definition unnamed_box : Box :=
  {| xywh := (dec 50 1, dec 50 1, dec 10 1, dec 10 1);
     xywhn := (dec 1 2, dec 1 2, dec 1 10, dec 1 10);
     cls := 42 |}.

(** A cast for the examples: truncation on the finite values. *)
Definition cast_trunc (f : pyfloat) : Z :=
  match f with
  | Fin q => truncQ q
  | _ => Z0
  end.

(** The pixel in row [i] and column [j] of an image. *)
Definition pixel_at (img : Image) (i j : nat) : option Z :=
  match pixels img !! i with
  | Some row => row !! j
  | None => None
  end.

(** The tracker after [k] frames of the car video, under the steady clock. *)
Definition after_frames (k : nat) : State :=
  fst (track_video default_settings clock_steady (car_video k) Tracker_init).

(** The centre [(x, y)] of a box, the point the loop appends. *)
Definition centre (box : Box) : point :=
  (fst (fst (fst (xywh box))), snd (fst (fst (xywh box)))).

(** The boxes of the events of a batch that carry the identity [id], in
    the order of the batch. *)
Definition boxes_of (id : Z) (evs : list (Box * Z * (nat * string))) : list Box :=
  List.map ev_box (List.filter (fun ev => Z.eqb (ev_id ev) id) evs).

(** Whether the class of a box has the name [l]. *)
Definition named (nms : list (nat * string)) (l : string) (box : Box) : bool :=
  match names_get nms (cls box) with
  | Ok l' => String.eqb l l'
  | Raise _ => false
  end.

(** A trajectory [old] followed by the points [new], without its oldest
    points: none is dropped while the list holds at most [MAX_POINTS + 1]
    points, and a longer [old] keeps its length. *)
Definition window (cfg : Settings) (old new : list point) : list point :=
  skipn (List.length old + List.length new
         - (if MAX_POINTS cfg <? List.length old then List.length old
            else Nat.min (List.length old + List.length new) (S (MAX_POINTS cfg))))
        (old ++ new).

(** A coordinate that is not finite, or finite of magnitude at most 1, and
    a box of such coordinates. *)
Definition normalized (f : pyfloat) : Prop :=
  match f with
  | Fin q => (-1 <= q)%Q /\ (q <= 1)%Q
  | _ => True
  end.

Definition bbox_normalized (b : bbox) : Prop :=
  let '(xc, yc, w, h) := b in normalized xc /\ normalized yc /\ normalized w /\ normalized h.

(** * Properties *)

(** ** The crop rectangle *)

Lemma py_int_sub_half a b : py_int (int_sub_half a b) = Ok (Z.quot (2 * a - b) 2).
Proof.
  unfold int_sub_half, py_int, truncQ. f_equal. cbn. f_equal. lia.
Qed.

Lemma truncQ_scaled q n :
  (0 <= q)%Q -> truncQ (q * inject_Z (Z.of_nat n)) = (Qnum q * Z.of_nat n / Zpos (Qden q))%Z.
Proof.
  intros Hq. destruct q as [a b]. unfold truncQ, Qle in *. cbn in *.
  rewrite Pos.mul_1_r. apply Z.quot_div_nonneg; lia.
Qed.

Lemma div_bounds (p : Z) (b : positive) :
  ((p / Z.pos b) * Z.pos b <= p /\ p < (p / Z.pos b + 1) * Z.pos b)%Z.
Proof.
  pose proof (Z.div_mod p (Z.pos b) ltac:(lia)) as Hdm.
  pose proof (Z.mod_pos_bound p (Z.pos b) ltac:(lia)) as Hmod.
  lia.
Qed.

(** One axis of the rectangle: with the pixel centre [C] and extent [E]
    truncated from a box inside the frame, the origin [trunc (C - E/2)] is
    not negative and the far side does not pass the frame's. *)
Lemma crop_axis (c e : Q) (n : nat) :
  (0 <= e)%Q -> (e <= 1)%Q -> (e / 2 <= c)%Q -> (c + e / 2 <= 1)%Q ->
  let C := truncQ (c * inject_Z (Z.of_nat n)) in
  let E := truncQ (e * inject_Z (Z.of_nat n)) in
  let x := Z.quot (2 * C - E) 2 in
  (0 <= x)%Z /\ (x <= x + E)%Z /\ (x + E <= Z.of_nat n)%Z.
Proof.
  intros He0 He1 Hlo Hhi.
  assert (Hc0 : (0 <= c)%Q).
  { apply Qle_trans with (e / 2)%Q; [|exact Hlo]. apply Qle_shift_div_l; [reflexivity|].
    ring_simplify. exact He0. }
  cbv zeta. rewrite !truncQ_scaled by assumption.
  destruct c as [a b], e as [k d]. unfold Qle, Qdiv, Qmult, Qplus, Qinv in *. cbn in *.
  rewrite ?Pos2Z.inj_mul in *.
  remember (Z.of_nat n) as W eqn:EW. assert (HW : (0 <= W)%Z) by lia. clear EW.
  destruct (div_bounds (a * W) b) as [HC1 HC2].
  destruct (div_bounds (k * W) d) as [HE1 HE2].
  assert (HE0 : (0 <= k * W / Z.pos d)%Z) by (apply Z.div_pos; nia).
  assert (HC0 : (0 <= a * W / Z.pos b)%Z) by (apply Z.div_pos; nia).
  remember (a * W / Z.pos b)%Z as C eqn:EC. remember (k * W / Z.pos d)%Z as E eqn:EE.
  clear EC EE.
  assert (Hb : (0 < Z.pos b)%Z) by lia. assert (Hd : (0 < Z.pos d)%Z) by lia.
  remember (Z.pos b) as B eqn:EB. remember (Z.pos d) as D eqn:ED. clear EB ED.
  assert (HEW : (E <= W)%Z).
  { apply Z.mul_le_mono_pos_r with D; [lia|]. nia. }
  assert (Hlow : (E <= 2 * C + 1)%Z).
  { destruct (Z_le_gt_dec E (2 * C + 1)) as [|Hgt]; [assumption|exfalso].
    assert (H1 : ((2 * C + 2) * D <= k * W)%Z) by nia.
    assert (H2 : (k * W * B <= 2 * (a * W) * D)%Z) by nia.
    assert (H3 : (2 * (a * W) * D < 2 * ((C + 1) * B) * D)%Z) by nia.
    assert (H4 : ((2 * C + 2) * D * B <= k * W * B)%Z) by nia.
    nia. }
  assert (Hupp : (2 * C + E <= 2 * W)%Z).
  { apply Z.mul_le_mono_pos_r with (B * D)%Z; [nia|].
    assert (H1 : (C * B * D <= a * W * D)%Z) by nia.
    assert (H2 : (E * D * B <= k * W * B)%Z) by nia.
    assert (H3 : (W * (a * (D * 2) + k * B) <= W * (B * (D * 2)))%Z)
      by (apply Z.mul_le_mono_nonneg_l; lia).
    nia. }
  destruct (Z_le_gt_dec 0 (2 * C - E)) as [Hpos|Hneg].
  - rewrite Z.quot_div_nonneg by lia.
    pose proof (Z.div_mod (2 * C - E) 2 ltac:(lia)).
    pose proof (Z.mod_pos_bound (2 * C - E) 2 ltac:(lia)). lia.
  - assert (Heq : (2 * C - E = -1)%Z) by lia.
    replace (Z.quot (2 * C - E) 2) with 0%Z by (rewrite Heq; reflexivity). lia.
Qed.

(** A finite box never makes the crop raise. *)
Lemma crop_rect_finite (H W : nat) (b : bbox) :
  bbox_finite b -> exists r, crop_rect H W b = Ok r.
Proof.
  destruct b as [[[xc yc] w] h]. intros ([q1 ->] & [q2 ->] & [q3 ->] & [q4 ->]).
  unfold crop_rect. cbn. eauto.
Qed.

Lemma crop_image_finite (image : Image) (b : bbox) :
  bbox_finite b -> exists img, crop_image_with_bbox image b = Ok img.
Proof.
  intros Hb. unfold crop_image_with_bbox.
  destruct (crop_rect_finite (height image) (width image) b Hb) as [[[[x y] x1] y1] ->].
  cbn. eauto.
Qed.

(** The full-frame box of the claim: rectangle [(0,0)-(100,100)]. *)
Example crop_rect_full_frame : crop_rect 100 100 full_bbox = Ok (0, 0, 100, 100)%Z.
Proof. reflexivity. Qed.

(** The corner box: origin [(-8,-8)], and the slice Python takes with these
    bounds is empty. *)
Example crop_rect_corner : crop_rect 100 100 corner_bbox = Ok (-8, -8, 12, 12)%Z.
Proof. reflexivity. Qed.

Example crop_image_corner_empty :
  crop_image_with_bbox (blank 100 100 7) corner_bbox
  = Ok {| height := 0; width := 0; pixels := [] |}.
Proof. vm_compute. reflexivity. Qed.

(** C3 (as stated, refuted): the rectangle of a box with coordinates in
    [0,1] is not clamped to the frame.  The box [(0.02, 0.02, 0.2, 0.2)] has
    all coordinates in [0,1], and on a 100x100 frame its rectangle has the
    negative origin [(-8,-8)]. *)
Lemma crop_rect_not_clamped :
  bbox_in_unit corner_bbox /\
  crop_rect 100 100 corner_bbox = Ok (-8, -8, 12, 12)%Z /\
  ~ (forall (H W : nat) (b : bbox) (x y x1 y1 : Z),
        bbox_in_unit b -> crop_rect H W b = Ok (x, y, x1, y1) ->
        (0 <= x)%Z /\ (0 <= y)%Z /\ (x1 <= Z.of_nat W)%Z /\ (y1 <= Z.of_nat H)%Z).
Proof.
  assert (Hu : bbox_in_unit corner_bbox).
  { unfold corner_bbox, bbox_in_unit, dec, in_unit, Qle; cbn. lia. }
  split; [exact Hu|]. split; [reflexivity|].
  intros Hclaim.
  destruct (Hclaim 100 100 corner_bbox (-8)%Z (-8)%Z 12%Z 12%Z Hu eq_refl) as [Hx _].
  lia.
Qed.

(** C3 (amended): no clamping is done; the rectangle is
    [x = trunc (x_center - w/2)], [y = trunc (y_center - h/2)] with sides
    [w], [h] in pixels.  For a box with coordinates in [0,1] that does not
    extend past the frame, the computation succeeds and the rectangle has a
    non-negative origin and lies within the frame. *)
Theorem crop_rect_within_frame (H W : nat) (b : bbox) :
  bbox_in_unit b -> bbox_inside b ->
  exists x y x1 y1 : Z,
    crop_rect H W b = Ok (x, y, x1, y1) /\
    (0 <= x)%Z /\ (x <= x1)%Z /\ (x1 <= Z.of_nat W)%Z /\
    (0 <= y)%Z /\ (y <= y1)%Z /\ (y1 <= Z.of_nat H)%Z.
Proof.
  destruct b as [[[xc yc] w] h]. intros (Hxc & Hyc & Hw & Hh) [Hx Hy].
  destruct xc as [xc| | |], w as [w| | |]; try contradiction.
  destruct yc as [yc| | |], h as [h| | |]; try contradiction.
  cbn in Hw, Hh, Hx, Hy.
  destruct (crop_axis xc w W) as (Hx0 & Hx1 & Hx2); try tauto.
  destruct (crop_axis yc h H) as (Hy0 & Hy1 & Hy2); try tauto.
  cbv zeta in *.
  eexists _, _, _, _. split.
  - unfold crop_rect. cbn [fmul_nat py_int mbind result_bind]. rewrite !py_int_sub_half.
    cbn [mbind result_bind]. reflexivity.
  - tauto.
Qed.

Lemma crop_rect_within_frame_witness :
  exists x y x1 y1 : Z,
    crop_rect 100 100 full_bbox = Ok (x, y, x1, y1) /\
    (0 <= x)%Z /\ (x <= x1)%Z /\ (x1 <= Z.of_nat 100)%Z /\
    (0 <= y)%Z /\ (y <= y1)%Z /\ (y1 <= Z.of_nat 100)%Z.
Proof.
  apply (crop_rect_within_frame 100 100 full_bbox).
  - unfold full_bbox, bbox_in_unit, dec, in_unit, Qle; cbn. lia.
  - unfold full_bbox, bbox_inside, box_inside, dec, Qle; cbn. lia.
Defined.

(** ** The vote ledger and the predicted type *)

Section Ledger.

Lemma votes_get_incr d k k' :
  votes_get (votes_incr d k) k' = (if String.eqb k' k then 1 else 0) + votes_get d k'.
Proof.
  induction d as [|[k0 n] d IH]; cbn.
  - destruct (String.eqb_spec k' k); reflexivity.
  - destruct (String.eqb_spec k k0) as [->|Hne]; cbn.
    + destruct (String.eqb_spec k' k0); reflexivity.
    + destruct (String.eqb_spec k' k0) as [->|Hne']; [|exact IH].
      destruct (String.eqb_spec k0 k); [congruence|reflexivity].
Qed.

Lemma keys_incr_old d k : In k (keys d) -> keys (votes_incr d k) = keys d.
Proof.
  induction d as [|[k0 n] d IH]; cbn; [tauto|].
  destruct (String.eqb_spec k k0) as [->|Hne]; cbn; [reflexivity|].
  intros [H|H]; [congruence|]. f_equal. apply IH, H.
Qed.

Lemma keys_incr_new d k : ~ In k (keys d) -> keys (votes_incr d k) = keys d ++ [k].
Proof.
  induction d as [|[k0 n] d IH]; cbn; [reflexivity|].
  destruct (String.eqb_spec k k0) as [->|Hne]; cbn; [tauto|].
  intros H. f_equal. apply IH. tauto.
Qed.

Lemma votes_total_incr d k : votes_total (votes_incr d k) = S (votes_total d).
Proof.
  induction d as [|[k0 n] d IH]; cbn; [reflexivity|].
  destruct (String.eqb_spec k k0); cbn; [reflexivity|]. rewrite IH. lia.
Qed.

Lemma votes_of_snoc ls a : votes_of (ls ++ [a]) = votes_incr (votes_of ls) a.
Proof. unfold votes_of. rewrite fold_left_app. reflexivity. Qed.

Lemma occurrences_snoc l ls a :
  occurrences l (ls ++ [a]) = (if String.eqb l a then 1 else 0) + occurrences l ls.
Proof. induction ls as [|b ls IH]; cbn; [lia|]. rewrite IH. lia. Qed.

Lemma votes_get_votes_of ls l : votes_get (votes_of ls) l = occurrences l ls.
Proof.
  induction ls as [|a ls IH] using rev_ind; [reflexivity|].
  rewrite votes_of_snoc, votes_get_incr, occurrences_snoc, IH. reflexivity.
Qed.

Lemma keys_votes_of_In ls l : In l (keys (votes_of ls)) <-> In l ls.
Proof.
  induction ls as [|a ls IH] using rev_ind; [reflexivity|].
  rewrite votes_of_snoc, in_app_iff.
  destruct (in_dec string_dec a (keys (votes_of ls))) as [Hin|Hnin].
  - rewrite keys_incr_old, IH by assumption. cbn. split; [tauto|].
    intros [H|[<-|[]]]; [assumption|]. apply IH, Hin.
  - rewrite keys_incr_new, in_app_iff, IH by assumption. reflexivity.
Qed.

Lemma occurrences_pos l ls : 0 < occurrences l ls <-> In l ls.
Proof.
  induction ls as [|a ls IH]; cbn; [split; [lia|tauto]|].
  destruct (String.eqb_spec l a) as [->|Hne].
  - split; [auto|lia].
  - rewrite IH. split; [auto|]. intros [H|H]; [congruence|assumption].
Qed.

Lemma first_index_lt l ls : In l ls -> first_index l ls < List.length ls.
Proof.
  induction ls as [|a ls IH]; cbn; [tauto|].
  destruct (String.eqb_spec l a) as [->|Hne]; [lia|].
  intros [H|H]; [congruence|]. specialize (IH H). lia.
Qed.

Lemma first_index_app_l l ls ls' : In l ls -> first_index l (ls ++ ls') = first_index l ls.
Proof.
  induction ls as [|a ls IH]; cbn; [tauto|].
  destruct (String.eqb_spec l a) as [->|Hne]; [reflexivity|].
  intros [H|H]; [congruence|]. rewrite IH by assumption. reflexivity.
Qed.

Lemma first_index_app_r l ls ls' :
  ~ In l ls -> first_index l (ls ++ ls') = List.length ls + first_index l ls'.
Proof.
  induction ls as [|a ls IH]; cbn; [reflexivity|].
  destruct (String.eqb_spec l a) as [->|Hne]; [tauto|].
  intros H. rewrite IH by tauto. reflexivity.
Qed.

(** The ledger lists the labels in the order of their first observation. *)
Lemma keys_votes_of_order ls l1 r l2 :
  keys (votes_of ls) = l1 ++ r :: l2 ->
  forall x, In x l2 -> first_index r ls < first_index x ls.
Proof.
  revert l1 r l2. induction ls as [|a ls IH] using rev_ind; intros l1 r l2 HK x Hx.
  - destruct l1; discriminate.
  - rewrite votes_of_snoc in HK.
    destruct (in_dec string_dec a (keys (votes_of ls))) as [Hin|Hnin].
    + rewrite keys_incr_old in HK by assumption.
      assert (Hr : In r ls) by (apply keys_votes_of_In; rewrite HK; apply in_elt).
      assert (Hx' : In x ls).
      { apply keys_votes_of_In. rewrite HK. apply in_or_app. right. right. exact Hx. }
      rewrite !first_index_app_l by assumption. eapply IH; eassumption.
    + rewrite keys_incr_new in HK by assumption.
      destruct (exists_last (l:=l2)) as [l2' [z ->]]; [intros ->; destruct Hx|].
      change (l1 ++ r :: l2' ++ [z]) with (l1 ++ (r :: l2') ++ [z]) in HK.
      rewrite app_assoc in HK. apply app_inj_tail in HK as [HK <-].
      assert (Hr : In r ls) by (apply keys_votes_of_In; rewrite HK; apply in_elt).
      rewrite (first_index_app_l r) by assumption.
      apply in_app_or in Hx as [Hx|[<-|[]]].
      * assert (Hx' : In x ls).
        { apply keys_votes_of_In. rewrite HK. apply in_or_app. right. right. exact Hx. }
        rewrite first_index_app_l by assumption. eapply IH; eassumption.
      * rewrite first_index_app_r by (rewrite <- keys_votes_of_In; exact Hnin).
        pose proof (first_index_lt r ls Hr). lia.
Qed.

(** [max_from] returns the first item of [best :: l] whose key is maximal. *)
Lemma max_from_first {A : Type} (key : A -> nat) (l : list A) (best : A) :
  exists l1 l2, best :: l = l1 ++ max_from key best l :: l2 /\
    (forall x, In x l1 -> key x < key (max_from key best l)) /\
    (forall x, In x l2 -> key x <= key (max_from key best l)).
Proof.
  revert best. induction l as [|a l IH]; intros best; cbn [max_from].
  - exists [], []. cbn. repeat split; intros x [].
  - destruct (Nat.ltb_spec (key best) (key a)) as [Hlt|Hge].
    + destruct (IH a) as (l1 & l2 & Heq & H1 & H2).
      exists (best :: l1), l2. rewrite Heq. split; [reflexivity|]. split; [|exact H2].
      intros x [<-|Hx]; [|auto].
      destruct l1 as [|b l1]; cbn in Heq.
      * injection Heq as <- _. exact Hlt.
      * injection Heq as <- _. specialize (H1 a (or_introl eq_refl)). lia.
    + destruct (IH best) as (l1 & l2 & Heq & H1 & H2).
      destruct l1 as [|b l1]; cbn in Heq.
      * injection Heq as Hb <-. exists [], (a :: l). cbn. rewrite <- Hb.
        split; [reflexivity|]. split; [intros x []|].
        intros x [<-|Hx]; [lia|]. rewrite Hb. auto.
      * injection Heq as <- Hl. exists (best :: a :: l1), l2.
        split; [cbn; do 2 f_equal; exact Hl|]. split; [|exact H2].
        specialize (H1 best (or_introl eq_refl)) as Hbest.
        intros x [<-|[<-|Hx]]; [exact Hbest| lia |]. apply H1. right. exact Hx.
Qed.

End Ledger.

(** C4: for a record whose ledger received a non-empty label sequence,
    [type] returns a label of the sequence with the maximal vote count, and
    any other label with the same count was first observed later. *)
Theorem type_max_first_observed (t : TrackedObject) (ls : list string) :
  ls <> [] -> predicted_types t = votes_of ls ->
  exists l, type t = Ok l /\ In l ls /\
    (forall l', occurrences l' ls <= occurrences l ls) /\
    (forall l', l' <> l -> occurrences l' ls = occurrences l ls ->
                first_index l ls < first_index l' ls).
Proof.
  intros Hne Ht. unfold type. rewrite Ht. fold (keys (votes_of ls)).
  destruct (keys (votes_of ls)) as [|b K] eqn:HK.
  - exfalso. destruct ls as [|a ls]; [congruence|].
    assert (H : In a (keys (votes_of (a :: ls)))) by (apply keys_votes_of_In; left; reflexivity).
    rewrite HK in H. destruct H.
  - cbn [py_max].
    destruct (max_from_first (fun x => votes_get (votes_of ls) x) K b) as (l1 & l2 & Heq & H1 & H2).
    set (r := max_from (fun x => votes_get (votes_of ls) x) b K) in *.
    rewrite <- HK in Heq.
    assert (Hr : In r ls) by (apply keys_votes_of_In; rewrite Heq; apply in_elt).
    exists r. split; [reflexivity|]. split; [exact Hr|].
    assert (Hcases : forall l', In l' ls -> l' = r \/ In l' l1 \/ In l' l2).
    { intros l' Hl'. apply keys_votes_of_In in Hl'. rewrite Heq in Hl'.
      apply in_app_or in Hl' as [H|[H|H]]; auto. }
    split.
    + intros l'. destruct (in_dec string_dec l' ls) as [Hin|Hnin].
      * destruct (Hcases l' Hin) as [->|[H|H]]; [lia| |].
        -- specialize (H1 l' H). cbn in H1. rewrite !votes_get_votes_of in H1. lia.
        -- specialize (H2 l' H). cbn in H2. rewrite !votes_get_votes_of in H2. lia.
      * assert (occurrences l' ls = 0); [|lia].
        destruct (occurrences l' ls) eqn:E; [reflexivity|].
        exfalso. apply Hnin, occurrences_pos. lia.
    + intros l' Hneq Hocc.
      assert (Hin : In l' ls).
      { apply occurrences_pos. rewrite Hocc. apply occurrences_pos, Hr. }
      destruct (Hcases l' Hin) as [->|[H|H]]; [congruence| |].
      * specialize (H1 l' H). cbn in H1. rewrite !votes_get_votes_of in H1. lia.
      * eapply keys_votes_of_order; eassumption.
Qed.

Lemma type_max_first_observed_witness :
  exists l, type (record_of_labels ["car"; "truck"; "car"]) = Ok l /\
    In l ["car"; "truck"; "car"] /\
    (forall l', occurrences l' ["car"; "truck"; "car"] <= occurrences l ["car"; "truck"; "car"]) /\
    (forall l', l' <> l ->
       occurrences l' ["car"; "truck"; "car"] = occurrences l ["car"; "truck"; "car"] ->
       first_index l ["car"; "truck"; "car"] < first_index l' ["car"; "truck"; "car"]).
Proof.
  apply (type_max_first_observed (record_of_labels ["car"; "truck"; "car"])
           ["car"; "truck"; "car"]).
  - discriminate.
  - reflexivity.
Defined.

(** The two label sequences of the claim. *)
Example type_car_truck_car : type (record_of_labels ["car"; "truck"; "car"]) = Ok "car".
Proof. reflexivity. Qed.

Example type_car_truck_tie : type (record_of_labels ["car"; "truck"]) = Ok "car".
Proof. reflexivity. Qed.

Example type_truck_car_tie : type (record_of_labels ["truck"; "car"]) = Ok "truck".
Proof. reflexivity. Qed.

(** C10: [type] raises [ValueError] on a record without votes, as a freshly
    created one is, and returns a label on every other record. *)
Theorem type_raises_without_votes (t : TrackedObject) :
  (predicted_types t = [] -> type t = Raise ValueError) /\
  (predicted_types t <> [] -> exists l, type t = Ok l).
Proof.
  unfold type. destruct (predicted_types t) as [|[k n] d]; cbn.
  - split; [reflexivity|congruence].
  - split; [discriminate|eauto].
Qed.

Lemma type_raises_without_votes_witness : type TrackedObject_init = Raise ValueError.
Proof.
  apply (proj1 (type_raises_without_votes TrackedObject_init)). reflexivity.
Defined.

(** ** The loop body on one record *)

Section Observe.
Context (cfg : Settings) (clk : clock) (frame : Image) (nms : list (nat * string)).

Lemma points_append_ok pts value :
  exists pts', points_append cfg pts value = Ok pts' /\
    pts' = (if MAX_POINTS cfg <? List.length pts then tl pts else pts) ++ [value].
Proof.
  unfold points_append. destruct (Nat.ltb_spec (MAX_POINTS cfg) (List.length pts)) as [Hlt|Hge].
  - destruct pts as [|p pts]; [cbn in Hlt; lia|]. cbn. eauto.
  - cbn. eauto.
Qed.

Lemma points_append_length pts value pts' :
  points_append cfg pts value = Ok pts' ->
  List.length pts <= S (MAX_POINTS cfg) -> List.length pts' <= S (MAX_POINTS cfg).
Proof.
  destruct (points_append_ok pts value) as (p & -> & ->). intros [= <-] Hlen.
  rewrite length_app. cbn [List.length].
  destruct (Nat.ltb_spec (MAX_POINTS cfg) (List.length pts)) as [Hlt|Hge].
  - destruct pts; cbn [List.length tl] in *; lia.
  - lia.
Qed.

(** What the snapshot gate does to a record. *)
Lemma capture_cases box t :
  (capture cfg frame box t = Ok t /\ (cropped_frame t <> None \/ __len__ t <= FRAMES_COUNT cfg)) \/
  (cropped_frame t = None /\ FRAMES_COUNT cfg < __len__ t /\
   ((exists img, crop_image_with_bbox frame (xywhn box) = Ok img /\
                capture cfg frame box t = Ok (with_cropped_frame t img)) \/
    (exists e, crop_image_with_bbox frame (xywhn box) = Raise e /\
              capture cfg frame box t = Raise e))).
Proof.
  unfold capture. destruct (cropped_frame t) as [img|] eqn:Hc.
  - left. split; [reflexivity|left; discriminate].
  - destruct (Nat.ltb_spec (FRAMES_COUNT cfg) (__len__ t)) as [Hlt|Hge].
    + right. split; [reflexivity|]. split; [exact Hlt|].
      destruct (crop_image_with_bbox frame (xywhn box)) as [img|e]; cbn; eauto.
    + left. split; [reflexivity|right; exact Hge].
Qed.

Lemma observe_observed box n t :
  observed cfg clk frame nms box n t (observe cfg clk frame nms box n t).
Proof.
  unfold observe.
  pose proof (observed_crop_raises cfg clk frame nms box n t) as H1.
  pose proof (observed_name_raises cfg clk frame nms box n t) as H2.
  pose proof (observed_done cfg clk frame nms box n t) as H3.
  destruct (xywh box) as [[[x y] w] h]. cbn [fst snd] in *.
  destruct (detect clk n t) as [t1 n1]. cbn [fst snd] in *.
  destruct (capture cfg frame box t1) as [t2|e]; [|apply H1; reflexivity].
  destruct (names_get nms (cls box)) as [label|e]; [|apply H2; reflexivity].
  cbn [tracked_points with_votes].
  destruct (points_append_ok (tracked_points t2) (x, y)) as (pts & -> & ->).
  apply H3; reflexivity.
Qed.

Lemma detect_fields n t :
  tracked_points (fst (detect clk n t)) = tracked_points t /\
  predicted_types (fst (detect clk n t)) = predicted_types t /\
  cropped_frame (fst (detect clk n t)) = cropped_frame t /\
  __len__ (fst (detect clk n t)) = __len__ t.
Proof. unfold detect, __len__. destruct (first_detection t); cbn; auto. Qed.

Lemma detect_first n t :
  first_detection (fst (detect clk n t)) =
  match first_detection t with
  | Some s => Some s
  | None => Some (strftime (clk n))
  end.
Proof. unfold detect. destruct (first_detection t) eqn:E; cbn; auto. Qed.

Lemma detect_stamped n t :
  unstamped t \/ stamped clk n t ->
  stamped clk (snd (detect clk n t)) (fst (detect clk n t)) /\ n < snd (detect clk n t).
Proof.
  unfold detect. intros [[Hf Hl]|(i & j & Hij & Hjn & Hf & Hl)]; rewrite Hf; cbn.
  - split; [|lia]. exists n, (S n). split; [lia|]. split; [lia|]. split; reflexivity.
  - split; [|lia]. exists i, n. split; [lia|]. split; [lia|]. split; reflexivity.
Qed.

Lemma capture_fields box t t2 :
  capture cfg frame box t = Ok t2 ->
  tracked_points t2 = tracked_points t /\
  predicted_types t2 = predicted_types t /\
  first_detection t2 = first_detection t /\
  last_detection t2 = last_detection t /\
  __len__ t2 = __len__ t.
Proof.
  destruct (capture_cases box t) as [[-> _]|(_ & _ & [(img & _ & ->)|(e & _ & ->)])].
  - intros [= <-]. auto.
  - intros [= <-]. cbn. auto.
  - discriminate.
Qed.

(** The snapshot is written only by the gate, and only over [None]. *)
Lemma capture_snapshot box t t2 :
  capture cfg frame box t = Ok t2 ->
  match cropped_frame t with
  | Some img => cropped_frame t2 = Some img
  | None =>
      if FRAMES_COUNT cfg <? __len__ t
      then exists img, crop_image_with_bbox frame (xywhn box) = Ok img /\
                       cropped_frame t2 = Some img
      else cropped_frame t2 = None
  end.
Proof.
  unfold capture. destruct (cropped_frame t) as [img|] eqn:Hc.
  - intros [= <-]. exact Hc.
  - destruct (FRAMES_COUNT cfg <? __len__ t).
    + destruct (crop_image_with_bbox frame (xywhn box)) as [img|e]; cbn; [|discriminate].
      intros [= <-]. eauto.
    + intros [= <-]. exact Hc.
Qed.

Lemma observed_stamps box n t t' n' e :
  observed cfg clk frame nms box n t (t', n', e) ->
  n' = snd (detect clk n t) /\
  first_detection t' = first_detection (fst (detect clk n t)) /\
  last_detection t' = last_detection (fst (detect clk n t)).
Proof.
  inversion 1 as [e0 Hc|t2 e0 Hc Hn|t2 label Hc Hn]; subst; auto.
  - destruct (capture_fields _ _ _ Hc) as (_ & _ & Hf & Hl & _). auto.
  - destruct (capture_fields _ _ _ Hc) as (_ & _ & Hf & Hl & _). cbn. auto.
Qed.

Lemma observed_ledger box n t t' n' e :
  observed cfg clk frame nms box n t (t', n', e) ->
  match e with
  | None =>
      exists label, names_get nms (cls box) = Ok label /\
        predicted_types t' = votes_incr (predicted_types t) label /\
        tracked_points t' =
          (if MAX_POINTS cfg <? List.length (tracked_points t)
           then tl (tracked_points t) else tracked_points t)
          ++ [(fst (fst (fst (xywh box))), snd (fst (fst (xywh box))))]
  | Some _ =>
      predicted_types t' = predicted_types t /\ tracked_points t' = tracked_points t
  end.
Proof.
  destruct (detect_fields n t) as (Hp & Hv & _ & _).
  inversion 1 as [e0 Hc|t2 e0 Hc Hn|t2 label Hc Hn]; subst; auto.
  - destruct (capture_fields _ _ _ Hc) as (Hp2 & Hv2 & _). split; congruence.
  - destruct (capture_fields _ _ _ Hc) as (Hp2 & Hv2 & _).
    exists label. cbn. rewrite Hp2, Hv2, Hp, Hv. auto.
Qed.

(** The snapshot of a record across one pass of the loop body: kept when
    present; otherwise taken exactly when the record's length already
    exceeds [FRAMES_COUNT] on entry. *)
Lemma observed_snapshot box n t t' n' e :
  observed cfg clk frame nms box n t (t', n', e) ->
  match cropped_frame t with
  | Some img => cropped_frame t' = Some img
  | None =>
      if FRAMES_COUNT cfg <? __len__ t
      then forall img, crop_image_with_bbox frame (xywhn box) = Ok img ->
                       cropped_frame t' = Some img
      else cropped_frame t' = None
  end.
Proof.
  destruct (detect_fields n t) as (_ & _ & Hc0 & Hl0).
  assert (Hgate : forall t2, capture cfg frame box (fst (detect clk n t)) = Ok t2 ->
    match cropped_frame t with
    | Some img => cropped_frame t2 = Some img
    | None =>
        if FRAMES_COUNT cfg <? __len__ t
        then forall img, crop_image_with_bbox frame (xywhn box) = Ok img ->
                         cropped_frame t2 = Some img
        else cropped_frame t2 = None
    end).
  { intros t2 Hc. apply capture_snapshot in Hc. rewrite Hc0, Hl0 in Hc.
    destruct (cropped_frame t); [exact Hc|].
    destruct (FRAMES_COUNT cfg <? __len__ t); [|exact Hc].
    destruct Hc as (img & Hcrop & Hset). intros img' Himg'. congruence. }
  inversion 1 as [e0 Hc|t2 e0 Hc Hn|t2 label Hc Hn]; subst.
  - rewrite Hc0. destruct (cropped_frame t) as [img|] eqn:Hcf; [reflexivity|].
    destruct (FRAMES_COUNT cfg <? __len__ t) eqn:Hlt; [|reflexivity].
    intros img Himg. unfold capture in Hc. rewrite Hc0, Hl0, Hlt, Himg in Hc.
    discriminate.
  - apply Hgate, Hc.
  - apply (Hgate _ Hc).
Qed.

Lemma observed_consistent box n t t' n' e :
  observed cfg clk frame nms box n t (t', n', e) -> consistent t -> consistent t'.
Proof.
  intros Hobs Hcons. apply observed_ledger in Hobs. destruct e as [e|].
  - destruct Hobs as [Hv Hp]. unfold consistent. rewrite Hv, Hp. exact Hcons.
  - destruct Hobs as (label & _ & _ & Hp). unfold consistent. rewrite Hp.
    intros Habs. apply app_eq_nil in Habs as [_ Habs]. discriminate.
Qed.

Lemma consistent_len t : consistent t -> __len__ t = votes_total (predicted_types t).
Proof.
  unfold consistent, __len__. destruct (tracked_points t); [|reflexivity].
  intros ->; reflexivity.
Qed.

End Observe.

(** ** The loop body on the store *)

Section Store.
Context (cfg : Settings) (clk : clock).

Lemma getitem_record (d : gmap Z TrackedObject) (key : Z) :
  fst (getitem d key) = default TrackedObject_init (d !! key).
Proof. unfold getitem. destruct (d !! key); reflexivity. Qed.

Lemma getitem_lookup (d : gmap Z TrackedObject) (key k : Z) :
  snd (getitem d key) !! k =
  if decide (key = k) then Some (default TrackedObject_init (d !! key)) else d !! k.
Proof.
  unfold getitem. destruct (d !! key) eqn:E; cbn.
  - case_decide; [subst; exact E|reflexivity].
  - rewrite lookup_insert. reflexivity.
Qed.

(** One pass of the loop, seen from the store: the record of the event's
    identity is the one the body leaves, every other record is untouched. *)
Lemma step_spec frame nms st box id nm :
  exists t' n' e,
    observe cfg clk frame nms box (now_calls st) (record_at st id) = (t', n', e) /\
    step cfg clk frame nms st (box, id, nm) =
      ({| tracked_objects := <[id := t']> (tracked_objects st); now_calls := n' |}, e).
Proof.
  unfold step, record_at. pose proof (getitem_record (tracked_objects st) id) as Hrec.
  destruct (getitem (tracked_objects st) id) as [t objs] eqn:Hg. cbn in Hrec. subst t.
  destruct (observe cfg clk frame nms box (now_calls st)
              (default TrackedObject_init (tracked_objects st !! id))) as [[t' n'] e].
  exists t', n', e. split; [reflexivity|]. f_equal. f_equal.
  unfold getitem in Hg. destruct (tracked_objects st !! id); inversion Hg; subst.
  - reflexivity.
  - apply insert_insert_eq.
Qed.

End Store.

(** ** Reachable states *)

Section Reachable.
Context (cfg : Settings) (clk : clock).

Lemma stamped_mono n n' t : n <= n' -> stamped clk n t -> stamped clk n' t.
Proof. intros Hn (i & j & Hij & Hj & Hf & Hl). exists i, j. repeat split; auto; lia. Qed.

Lemma fresh_or_stamped st id :
  invariant cfg clk st ->
  consistent (record_at st id) /\
  (unstamped (record_at st id) \/ stamped clk (now_calls st) (record_at st id)) /\
  List.length (tracked_points (record_at st id)) <= S (MAX_POINTS cfg).
Proof.
  intros Hinv. unfold record_at. destruct (tracked_objects st !! id) as [t|] eqn:E; cbn.
  - destruct (Hinv id t E) as (H1 & H2 & H3). auto.
  - split; [intros _; reflexivity|]. split; [left; split; reflexivity|lia].
Qed.

Lemma step_invariant frame nms st ev :
  invariant cfg clk st -> invariant cfg clk (fst (step cfg clk frame nms st ev)).
Proof.
  intros Hinv. destruct ev as [[box id] nm].
  destruct (step_spec cfg clk frame nms st box id nm) as (t' & n' & e & Hobs & ->).
  pose proof (observe_observed cfg clk frame nms box (now_calls st) (record_at st id)) as Ho.
  rewrite Hobs in Ho.
  destruct (fresh_or_stamped st id Hinv) as (Hc & Hs & Hlen).
  destruct (observed_stamps _ _ _ _ _ _ _ _ _ _ Ho) as (Hn' & Hf & Hl).
  destruct (detect_stamped clk (now_calls st) (record_at st id) Hs) as [Hst Hlt].
  rewrite <- Hn' in Hst, Hlt.
  intros k t. cbn [fst tracked_objects now_calls]. rewrite lookup_insert.
  case_decide as Hk.
  - intros [= <-]. split; [eapply observed_consistent; eassumption|]. split.
    + destruct Hst as (i & j & Hij & Hj & Hfi & Hlj). exists i, j. repeat split; auto; congruence.
    + apply observed_ledger in Ho. destruct e as [e|].
      * destruct Ho as [_ ->]. exact Hlen.
      * destruct Ho as (label & _ & _ & ->). rewrite length_app. cbn [List.length].
        destruct (Nat.ltb_spec (MAX_POINTS cfg) (List.length (tracked_points (record_at st id))));
          [|lia].
        destruct (tracked_points (record_at st id)); cbn [List.length tl] in *; lia.
  - intros Ht. destruct (Hinv k t Ht) as (H1 & H2 & H3). split; [exact H1|]. split; [|exact H3].
    eapply stamped_mono; [|exact H2]. lia.
Qed.

Lemma reachable_invariant st : reachable cfg clk st -> invariant cfg clk st.
Proof.
  induction 1 as [|st frame nms ev Hr IH].
  - intros id t Ht. cbn in Ht. rewrite lookup_empty in Ht. discriminate.
  - apply step_invariant, IH.
Qed.

Lemma run_loop_reachable frame nms evs st :
  reachable cfg clk st -> reachable cfg clk (fst (run_loop cfg clk frame nms st evs)).
Proof.
  revert st. induction evs as [|ev evs IH]; intros st Hr; cbn [run_loop]; [exact Hr|].
  pose proof (reachable_step cfg clk st frame nms ev Hr) as Hr'.
  destruct (step cfg clk frame nms st ev) as [st' [e|]]; cbn [fst] in *; auto.
Qed.

Lemma track_next_frame_reachable frame results st :
  reachable cfg clk st -> reachable cfg clk (fst (track_next_frame cfg clk frame results st)).
Proof.
  intros Hr. unfold track_next_frame. destruct (boxes_id results); [|exact Hr].
  apply run_loop_reachable, Hr.
Qed.

Lemma track_video_reachable video st :
  reachable cfg clk st -> reachable cfg clk (fst (track_video cfg clk video st)).
Proof.
  unfold track_video.
  assert (H : forall acc, reachable cfg clk (fst acc) ->
    reachable cfg clk (fst (fold_left (fun acc fr =>
               match acc with
               | (st', None) => track_next_frame cfg clk (fst fr) (snd fr) st'
               | (st', Some e) => (st', Some e)
               end) video acc))).
  { induction video as [|fr video IH]; intros acc Hacc; cbn [fold_left]; [exact Hacc|].
    apply IH. destruct acc as [st' [e|]]; [exact Hacc|].
    apply track_next_frame_reachable, Hacc. }
  intros Hr. apply H, Hr.
Qed.

(** Along any pass of the loop body a record stays in the store, keeps its
    first timestamp once set, and keeps its snapshot once taken. *)
Lemma step_keeps frame nms st ev id t :
  tracked_objects st !! id = Some t ->
  exists t', tracked_objects (fst (step cfg clk frame nms st ev)) !! id = Some t' /\
    (forall s, first_detection t = Some s -> first_detection t' = Some s) /\
    (forall img, cropped_frame t = Some img -> cropped_frame t' = Some img) /\
    (forall l, votes_get (predicted_types t) l <= votes_get (predicted_types t') l).
Proof.
  intros Ht. destruct ev as [[box k] nm].
  destruct (step_spec cfg clk frame nms st box k nm) as (t' & n' & e & Hobs & ->).
  cbn [fst tracked_objects]. rewrite lookup_insert. case_decide as Hk.
  - subst k. exists t'. split; [reflexivity|].
    pose proof (observe_observed cfg clk frame nms box (now_calls st) (record_at st id)) as Ho.
    rewrite Hobs in Ho. unfold record_at in Ho. rewrite Ht in Ho.
    change (default TrackedObject_init (Some t)) with t in Ho.
    split; [|split].
    + intros s Hs. destruct (observed_stamps _ _ _ _ _ _ _ _ _ _ Ho) as (_ & -> & _).
      rewrite detect_first, Hs. reflexivity.
    + intros img Himg. apply observed_snapshot in Ho. rewrite Himg in Ho. exact Ho.
    + intros l. apply observed_ledger in Ho. destruct e as [e|].
      * destruct Ho as [-> _]. lia.
      * destruct Ho as (label & _ & -> & _). rewrite votes_get_incr. lia.
  - exists t. split; [exact Ht|]. repeat split; auto.
Qed.

End Reachable.

(** ** Timestamps, lengths, trajectories and snapshots *)

Section Theorems.
Context (cfg : Settings) (clk : clock).

Lemma run_loop_keeps frame nms evs st id t :
  tracked_objects st !! id = Some t ->
  exists t', tracked_objects (fst (run_loop cfg clk frame nms st evs)) !! id = Some t' /\
    (forall s, first_detection t = Some s -> first_detection t' = Some s) /\
    (forall img, cropped_frame t = Some img -> cropped_frame t' = Some img) /\
    (forall l, votes_get (predicted_types t) l <= votes_get (predicted_types t') l).
Proof.
  revert st t. induction evs as [|ev evs IH]; intros st t Ht; cbn [run_loop].
  - exists t. split; [exact Ht|]. repeat split; auto.
  - destruct (step_keeps cfg clk frame nms st ev id t Ht) as (t1 & Ht1 & Hf1 & Hc1 & Hv1).
    destruct (step cfg clk frame nms st ev) as [st1 [e|]]; cbn [fst] in *.
    + exists t1. auto.
    + destruct (IH st1 t1 Ht1) as (t' & Ht' & Hf & Hc & Hv).
      exists t'. split; [exact Ht'|]. split; [auto|]. split; [auto|].
      intros l. specialize (Hv1 l). specialize (Hv l). lia.
Qed.

Lemma track_next_frame_keeps frame results st id t :
  tracked_objects st !! id = Some t ->
  exists t', tracked_objects (fst (track_next_frame cfg clk frame results st)) !! id = Some t' /\
    (forall s, first_detection t = Some s -> first_detection t' = Some s) /\
    (forall img, cropped_frame t = Some img -> cropped_frame t' = Some img) /\
    (forall l, votes_get (predicted_types t) l <= votes_get (predicted_types t') l).
Proof.
  intros Ht. unfold track_next_frame. destruct (boxes_id results).
  - apply run_loop_keeps, Ht.
  - exists t. split; [exact Ht|]. repeat split; auto.
Qed.

Lemma step_first_detection frame nms st box id nm :
  exists t', tracked_objects (fst (step cfg clk frame nms st (box, id, nm))) !! id = Some t' /\
    first_detection t' =
      match first_detection (record_at st id) with
      | Some s => Some s
      | None => Some (strftime (clk (now_calls st)))
      end.
Proof.
  destruct (step_spec cfg clk frame nms st box id nm) as (t' & n' & e & Hobs & ->).
  cbn [fst tracked_objects]. rewrite lookup_insert_eq. exists t'. split; [reflexivity|].
  pose proof (observe_observed cfg clk frame nms box (now_calls st) (record_at st id)) as Ho.
  rewrite Hobs in Ho. destruct (observed_stamps _ _ _ _ _ _ _ _ _ _ Ho) as (_ & -> & _).
  apply detect_first.
Qed.

(** C6 (amended): [first_detection] is assigned on the record's first
    observation, where it takes the clock's reading, and no later pass
    changes it; both timestamps are readings of the clock, the first taken
    no later than the last, so that the first does not follow the last in
    time whenever the clock does not step back. *)
Theorem first_detection_set_once (st : State) :
  reachable cfg clk st ->
  (forall frame nms box id nm,
     exists t', tracked_objects (fst (step cfg clk frame nms st (box, id, nm))) !! id = Some t' /\
       first_detection t' =
         match tracked_objects st !! id with
         | Some t => first_detection t
         | None => Some (strftime (clk (now_calls st)))
         end) /\
  (forall id t, tracked_objects st !! id = Some t ->
     (exists i j, i <= j /\
        first_detection t = Some (strftime (clk i)) /\
        last_detection t = Some (strftime (clk j)) /\
        ((forall a b, a <= b -> dt_leb (clk a) (clk b) = true) ->
         dt_leb (clk i) (clk j) = true)) /\
     (forall frame results,
        exists t', tracked_objects (fst (track_next_frame cfg clk frame results st)) !! id
                   = Some t' /\
          first_detection t' = first_detection t)).
Proof.
  intros Hreach. pose proof (reachable_invariant cfg clk st Hreach) as Hinv. split.
  - intros frame nms box id nm.
    destruct (step_first_detection frame nms st box id nm) as (t' & Ht' & Hf).
    exists t'. split; [exact Ht'|]. rewrite Hf. unfold record_at.
    destruct (tracked_objects st !! id) as [t|] eqn:E; cbn; [|reflexivity].
    destruct (Hinv id t E) as (_ & (i & j & _ & _ & -> & _) & _). reflexivity.
  - intros id t Ht. destruct (Hinv id t Ht) as (_ & (i & j & Hij & _ & Hf & Hl) & _). split.
    + exists i, j. repeat split; auto.
    + intros frame results.
      destruct (track_next_frame_keeps frame results st id t Ht) as (t' & Ht' & Hkeep & _).
      exists t'. split; [exact Ht'|]. rewrite Hf. apply Hkeep, Hf.
Qed.

(** C7: in every reachable state the length of a record is the sum of its
    vote counts, and each pass of the loop body that completes adds exactly
    one to the length of the record of the event's identity. *)
Theorem len_counts_votes (st : State) :
  reachable cfg clk st ->
  (forall id t, tracked_objects st !! id = Some t ->
     __len__ t = votes_total (predicted_types t)) /\
  (forall frame nms box id nm st',
     step cfg clk frame nms st (box, id, nm) = (st', None) ->
     __len__ (record_at st' id) = S (__len__ (record_at st id))).
Proof.
  intros Hreach. pose proof (reachable_invariant cfg clk st Hreach) as Hinv. split.
  - intros id t Ht. apply consistent_len. apply (Hinv id t Ht).
  - intros frame nms box id nm st' Hstep.
    pose proof (reachable_step cfg clk st frame nms (box, id, nm) Hreach) as Hreach'.
    rewrite Hstep in Hreach'. cbn [fst] in Hreach'.
    pose proof (reachable_invariant cfg clk st' Hreach') as Hinv'.
    destruct (fresh_or_stamped cfg clk st id Hinv) as (Hc & _).
    destruct (fresh_or_stamped cfg clk st' id Hinv') as (Hc' & _).
    rewrite !consistent_len by assumption.
    destruct (step_spec cfg clk frame nms st box id nm) as (t' & n' & e & Hobs & Hs).
    rewrite Hs in Hstep. injection Hstep as <- ->.
    pose proof (observe_observed cfg clk frame nms box (now_calls st) (record_at st id)) as Ho.
    rewrite Hobs in Ho. apply observed_ledger in Ho. destruct Ho as (label & _ & Hv & _).
    unfold record_at at 1. cbn [tracked_objects]. rewrite lookup_insert_eq. cbn.
    rewrite Hv. apply votes_total_incr.
Qed.

(** The trajectory of a record of a reachable state holds at most
    [MAX_POINTS + 1] points. *)
Lemma tracked_points_bound (st : State) id t :
  reachable cfg clk st -> tracked_objects st !! id = Some t ->
  List.length (tracked_points t) <= S (MAX_POINTS cfg).
Proof. intros Hreach Ht. apply (reachable_invariant cfg clk st Hreach id t Ht). Qed.

(** A pass of the loop body that completes takes the snapshot exactly when
    the record has none and its length on entry, before this event is
    counted, already exceeds [FRAMES_COUNT]. *)
Lemma step_snapshot frame nms st box id nm st' :
  step cfg clk frame nms st (box, id, nm) = (st', None) ->
  match cropped_frame (record_at st id) with
  | Some img => cropped_frame (record_at st' id) = Some img
  | None =>
      if FRAMES_COUNT cfg <? __len__ (record_at st id)
      then exists img, crop_image_with_bbox frame (xywhn box) = Ok img /\
                       cropped_frame (record_at st' id) = Some img
      else cropped_frame (record_at st' id) = None
  end.
Proof.
  intros Hstep.
  destruct (step_spec cfg clk frame nms st box id nm) as (t' & n' & e & Hobs & Hs).
  rewrite Hs in Hstep. injection Hstep as <- ->.
  unfold record_at at 2 4 5. cbn [tracked_objects]. rewrite lookup_insert_eq. 
  change (default TrackedObject_init (Some t')) with t'.
  pose proof (observe_observed cfg clk frame nms box (now_calls st) (record_at st id)) as Ho.
  rewrite Hobs in Ho.
  destruct (detect_fields clk (now_calls st) (record_at st id)) as (_ & _ & Hc0 & Hl0).
  inversion Ho as [| |t2 label Hc Hn]; subst.
  apply capture_snapshot in Hc. rewrite Hc0, Hl0 in Hc. exact Hc.
Qed.

End Theorems.

Lemma clock_steady_monotone a b : a <= b -> dt_leb (clock_steady a) (clock_steady b) = true.
Proof.
  intros Hab. unfold dt_leb, clock_steady, dt_fields. cbn [year month day hour minute second lex_leb].
  rewrite !Nat.ltb_irrefl, !Nat.eqb_refl. cbn [orb andb].
  destruct (Nat.ltb_spec (Nat.min a 59) (Nat.min b 59)) as [|Hge]; [reflexivity|].
  cbn [orb]. rewrite andb_true_r. apply Nat.eqb_eq. lia.
Qed.

Lemma first_detection_set_once_witness :
  exists i j, i <= j /\
    first_detection
      (record_at (fst (track_video default_settings clock_steady (car_video 2) Tracker_init)) 1)
    = Some (strftime (clock_steady i)) /\
    last_detection
      (record_at (fst (track_video default_settings clock_steady (car_video 2) Tracker_init)) 1)
    = Some (strftime (clock_steady j)) /\
    dt_leb (clock_steady i) (clock_steady j) = true.
Proof.
  assert (Hreach : reachable default_settings clock_steady
            (fst (track_video default_settings clock_steady (car_video 2) Tracker_init))).
  { apply track_video_reachable, reachable_init. }
  destruct (first_detection_set_once default_settings clock_steady _ Hreach) as [_ Hrec].
  destruct (Hrec 1%Z
              (record_at (fst (track_video default_settings clock_steady (car_video 2)
                                 Tracker_init)) 1))
    as [(i & j & Hij & Hf & Hl & Hle) _].
  { vm_compute. reflexivity. }
  exists i, j. split; [exact Hij|]. split; [exact Hf|]. split; [exact Hl|].
  apply Hle. exact clock_steady_monotone.
Defined.

(** C6 (as stated, refuted): the timestamps are wall-clock readings stored as
    [dd.mm.YYYY HH:MM:SS] strings.  With a local clock set back an hour
    between two observations of identity 1, the record holds a first
    timestamp that follows the last one, both as the strings compare and as
    the readings compare. *)
Lemma first_seen_after_last_seen :
  reachable default_settings clock_set_back
    (fst (track_video default_settings clock_set_back (car_video 2) Tracker_init)) /\
  first_detection
    (record_at (fst (track_video default_settings clock_set_back (car_video 2) Tracker_init)) 1)
  = Some "25.10.2026 02:59:59" /\
  last_detection
    (record_at (fst (track_video default_settings clock_set_back (car_video 2) Tracker_init)) 1)
  = Some "25.10.2026 02:00:00" /\
  str_leb "25.10.2026 02:59:59" "25.10.2026 02:00:00" = false /\
  dt_leb (clock_set_back 0) (clock_set_back 2) = false.
Proof.
  split; [apply track_video_reachable, reachable_init|].
  repeat split; vm_compute; reflexivity.
Qed.

(** C1 (the code at the failing input): under the default settings, after
    eleven observations of identity 1 the record has length 11, is returned
    by [get_objects], and still has no snapshot; the snapshot is taken
    during the twelfth observation. *)
Theorem snapshot_taken_on_twelfth_observation (clk : clock) :
  __len__ (record_at (fst (track_video default_settings clk (car_video 11) Tracker_init)) 1) = 11 /\
  cropped_frame (record_at (fst (track_video default_settings clk (car_video 11) Tracker_init)) 1)
  = None /\
  (exists t,
     snd (get_objects default_settings
            (tracked_objects (fst (track_video default_settings clk (car_video 11) Tracker_init))))
       !! 1%Z = Some t /\ cropped_frame t = None) /\
  __len__ (record_at (fst (track_video default_settings clk (car_video 12) Tracker_init)) 1) = 12 /\
  cropped_frame (record_at (fst (track_video default_settings clk (car_video 12) Tracker_init)) 1)
  = Some (blank 10 10 7).
Proof.
  split; [vm_compute; reflexivity|]. split; [vm_compute; reflexivity|].
  split; [eexists; split; vm_compute; reflexivity|].
  split; vm_compute; reflexivity.
Qed.

(** C2 (the code at the failing input): under the default settings, after
    91 observations of identity 1 the trajectory holds 91 points, one more
    than [MAX_POINTS]. *)
Theorem tracked_points_exceed_max_points (clk : clock) :
  MAX_POINTS default_settings = 90 /\
  List.length
    (tracked_points
       (record_at (fst (track_video default_settings clk (car_video 91) Tracker_init)) 1))
  = 91.
Proof. split; vm_compute; reflexivity. Qed.

(** ** The ledger as the history of a record's labels *)

Section History.
Context (cfg : Settings) (clk : clock).

(** A completed pass extends the label sequence of the record by the label
    of the event. *)
Lemma step_ledger_history frame nms st box id nm st' ls :
  step cfg clk frame nms st (box, id, nm) = (st', None) ->
  predicted_types (record_at st id) = votes_of ls ->
  exists label, names_get nms (cls box) = Ok label /\
    predicted_types (record_at st' id) = votes_of (ls ++ [label]).
Proof.
  intros Hstep Hls.
  destruct (step_spec cfg clk frame nms st box id nm) as (t' & n' & e & Hobs & Hs).
  rewrite Hs in Hstep. injection Hstep as <- ->.
  pose proof (observe_observed cfg clk frame nms box (now_calls st) (record_at st id)) as Ho.
  rewrite Hobs in Ho. apply observed_ledger in Ho. destruct Ho as (label & Hn & Hv & _).
  exists label. split; [exact Hn|].
  unfold record_at at 1. cbn [tracked_objects]. rewrite lookup_insert_eq.
  change (default TrackedObject_init (Some t')) with t'.
  rewrite Hv, Hls, votes_of_snoc. reflexivity.
Qed.

(** The ledger of every record of a reachable state is the ledger of a
    label sequence. *)
Lemma reachable_ledger st :
  reachable cfg clk st ->
  forall id t, tracked_objects st !! id = Some t -> exists ls, predicted_types t = votes_of ls.
Proof.
  induction 1 as [|st frame nms [[box k] nm] Hr IH]; intros id t Ht.
  - cbn in Ht. rewrite lookup_empty in Ht. discriminate.
  - destruct (step_spec cfg clk frame nms st box k nm) as (t' & n' & e & Hobs & Hs).
    rewrite Hs in Ht. cbn [fst tracked_objects] in Ht. rewrite lookup_insert in Ht.
    case_decide as Hk; [|apply (IH id t Ht)].
    injection Ht as <-.
    assert (Hold : exists ls, predicted_types (record_at st k) = votes_of ls).
    { unfold record_at. destruct (tracked_objects st !! k) as [t0|] eqn:E.
      - apply (IH k t0 E).
      - exists []. reflexivity. }
    destruct Hold as [ls Hls].
    pose proof (observe_observed cfg clk frame nms box (now_calls st) (record_at st k)) as Ho.
    rewrite Hobs in Ho. apply observed_ledger in Ho. destruct e as [e|].
    + destruct Ho as [Hv _]. exists ls. congruence.
    + destruct Ho as (label & _ & Hv & _). exists (ls ++ [label]).
      rewrite Hv, Hls, votes_of_snoc. reflexivity.
Qed.

End History.

(** ** The confirmed-track query *)

Section Query.
Context (cfg : Settings).

Lemma get_objects_fold (d : gmap Z TrackedObject) (ks : list Z) (out : gmap Z TrackedObject) :
  (forall k, k ∈ ks -> is_Some (d !! k)) ->
  let r := foldl (fun '(d', out) key =>
                    let '(t, d'') := getitem d' key in (d'', <[key := t]> out)) (d, out) ks in
  fst r = d /\
  forall k, snd r !! k = if decide (k ∈ ks) then d !! k else out !! k.
Proof.
  revert out. induction ks as [|a ks IH]; intros out Hks; cbn [foldl fold_left].
  - split; [reflexivity|]. intros k. rewrite decide_False; [reflexivity|apply not_elem_of_nil].
  - destruct (Hks a) as [t Ht]; [left|].
    assert (Hg : getitem d a = (t, d)) by (unfold getitem; rewrite Ht; reflexivity).
    rewrite Hg.
    destruct (IH (<[a := t]> out)) as [Hfst Hsnd]; [intros k Hk; apply Hks; right; exact Hk|].
    split; [exact Hfst|]. intros k. rewrite Hsnd.
    destruct (decide (k ∈ ks)) as [Hin|Hnin].
    + rewrite decide_True by (right; exact Hin). reflexivity.
    + rewrite lookup_insert. destruct (decide (a = k)) as [->|Hne].
      * rewrite decide_True by left. symmetry. exact Ht.
      * rewrite decide_False; [reflexivity|]. rewrite elem_of_cons. intros [H|H]; [congruence|tauto].
Qed.

Lemma confirmed_keys (d : gmap Z TrackedObject) (k : Z) :
  k ∈ List.filter (confirmed cfg d) (elements (dom d)) <->
  exists t, d !! k = Some t /\ (FRAMES_COUNT cfg <? __len__ t) = true.
Proof.
  rewrite list_elem_of_In, filter_In, <- list_elem_of_In, elem_of_elements, elem_of_dom.
  unfold confirmed. split.
  - intros [[t Ht] Hc]. rewrite Ht in Hc. eauto.
  - intros (t & Ht & Hc). rewrite Ht. split; [eauto|exact Hc].
Qed.

Lemma get_objects_lookup (d : gmap Z TrackedObject) :
  fst (get_objects cfg d) = d /\
  forall k, snd (get_objects cfg d) !! k =
    match d !! k with
    | Some t => if FRAMES_COUNT cfg <? __len__ t then Some t else None
    | None => None
    end.
Proof.
  unfold get_objects.
  destruct (get_objects_fold d (List.filter (confirmed cfg d) (elements (dom d))) ∅)
    as [Hfst Hsnd].
  { intros k Hk. apply confirmed_keys in Hk as (t & Ht & _). eauto. }
  split; [exact Hfst|]. intros k. rewrite Hsnd.
  destruct (d !! k) as [t|] eqn:E.
  - destruct (FRAMES_COUNT cfg <? __len__ t) eqn:Hc.
    + rewrite decide_True; [reflexivity|]. apply confirmed_keys. eauto.
    + rewrite decide_False; [apply lookup_empty|]. intros Hin.
      apply confirmed_keys in Hin as (t' & Ht' & Hc'). congruence.
  - rewrite decide_False; [apply lookup_empty|]. intros Hin.
    apply confirmed_keys in Hin as (t' & Ht' & _). congruence.
Qed.

(** C5: [get_objects] leaves the store as it is and returns exactly the
    stored records whose length is strictly greater than [FRAMES_COUNT];
    with [FRAMES_COUNT = 10] a record of length 10 is left out and one of
    length 11 is returned. *)
Theorem get_objects_confirmed (d : gmap Z TrackedObject) :
  fst (get_objects cfg d) = d /\
  snd (get_objects cfg d) = filter (fun kt => FRAMES_COUNT cfg < __len__ (snd kt)) d /\
  (FRAMES_COUNT cfg = 10 ->
   forall k t, d !! k = Some t ->
     (__len__ t = 10 -> snd (get_objects cfg d) !! k = None) /\
     (__len__ t = 11 -> snd (get_objects cfg d) !! k = Some t)).
Proof.
  destruct (get_objects_lookup d) as [Hfst Hsnd]. split; [exact Hfst|]. split.
  - apply map_eq. intros k. rewrite Hsnd. symmetry.
    destruct (d !! k) as [t|] eqn:E.
    + destruct (Nat.ltb_spec (FRAMES_COUNT cfg) (__len__ t)) as [Hlt|Hge].
      * apply map_lookup_filter_Some. split; [exact E|exact Hlt].
      * apply map_lookup_filter_None. right. intros t' Ht'. cbn. rewrite E in Ht'.
        injection Ht' as <-. lia.
    + apply map_lookup_filter_None. left. exact E.
  - intros Hten k t Ht. rewrite Hsnd, Ht, Hten. split; intros ->; reflexivity.
Qed.
End Query.

Lemma get_objects_confirmed_witness :
  fst (get_objects default_settings
         (tracked_objects (fst (track_video default_settings clock_steady (car_video 11)
                                  Tracker_init))))
  = tracked_objects (fst (track_video default_settings clock_steady (car_video 11) Tracker_init)) /\
  snd (get_objects default_settings
         (tracked_objects (fst (track_video default_settings clock_steady (car_video 10)
                                  Tracker_init)))) !! 1%Z = None /\
  snd (get_objects default_settings
         (tracked_objects (fst (track_video default_settings clock_steady (car_video 11)
                                  Tracker_init)))) !! 1%Z
  = Some (record_at (fst (track_video default_settings clock_steady (car_video 11)
                            Tracker_init)) 1).
Proof.
  pose proof (get_objects_confirmed default_settings
                (tracked_objects (fst (track_video default_settings clock_steady (car_video 10)
                                         Tracker_init)))) as (_ & _ & Hten).
  pose proof (get_objects_confirmed default_settings
                (tracked_objects (fst (track_video default_settings clock_steady (car_video 11)
                                         Tracker_init)))) as (Hfst & _ & Heleven).
  split; [exact Hfst|]. split.
  - refine (proj1 (Hten eq_refl 1%Z
                     (record_at (fst (track_video default_settings clock_steady (car_video 10)
                                        Tracker_init)) 1) _) _);
      vm_compute; reflexivity.
  - refine (proj2 (Heleven eq_refl 1%Z
                     (record_at (fst (track_video default_settings clock_steady (car_video 11)
                                        Tracker_init)) 1) _) _);
      vm_compute; reflexivity.
Defined.

(** ** Batches *)

Section Batch.
Context (cfg : Settings) (clk : clock).

Lemma votes_at_insert st id t n k :
  votes_at {| tracked_objects := <[id := t]> (tracked_objects st); now_calls := n |} k =
  if decide (id = k) then votes_total (predicted_types t) else votes_at st k.
Proof.
  unfold votes_at, record_at. cbn [tracked_objects]. rewrite lookup_insert.
  case_decide; reflexivity.
Qed.

(** An event with a finite box and a named class is applied, whatever its
    coordinates and its label are: the pass completes and adds one vote to
    the record of its identity. *)
Lemma step_applies frame nms st box id nm :
  applicable nms box ->
  exists st', step cfg clk frame nms st (box, id, nm) = (st', None) /\
    forall k, votes_at st' k = votes_at st k + (if decide (id = k) then 1 else 0).
Proof.
  intros [Hfin [label Hlabel]].
  destruct (step_spec cfg clk frame nms st box id nm) as (t' & n' & e & Hobs & ->).
  pose proof (observe_observed cfg clk frame nms box (now_calls st) (record_at st id)) as Ho.
  rewrite Hobs in Ho.
  assert (He : e = None).
  { inversion Ho as [e0 Hc|t2 e0 Hc Hn|t2 l0 Hc Hn]; subst; [| congruence | reflexivity].
    destruct (crop_image_finite frame (xywhn box) Hfin) as [img Himg].
    destruct (capture_cases cfg frame box (fst (detect clk (now_calls st) (record_at st id))))
      as [[Hok _]|(_ & _ & [(img' & _ & Hok)|(e' & Hcrop & _)])]; congruence. }
  subst e. eexists. split; [reflexivity|].
  apply observed_ledger in Ho. destruct Ho as (l0 & _ & Hv & _).
  intros k. rewrite votes_at_insert. case_decide as Hk.
  - subst k. rewrite Hv, votes_total_incr. unfold votes_at. lia.
  - lia.
Qed.

Lemma run_loop_applies frame nms evs st :
  Forall (fun ev => applicable nms (ev_box ev)) evs ->
  exists st', run_loop cfg clk frame nms st evs = (st', None) /\
    forall k, votes_at st' k = votes_at st k + count_occ Z.eq_dec (List.map ev_id evs) k.
Proof.
  revert st. induction evs as [|[[box id] nm] evs IH]; intros st Hall; cbn [run_loop].
  - exists st. split; [reflexivity|]. intros k. cbn. lia.
  - inversion Hall as [|ev evs' Hev Hevs]; subst. cbn [ev_box fst] in Hev.
    destruct (step_applies frame nms st box id nm Hev) as (st1 & -> & Hv1).
    destruct (IH st1 Hevs) as (st' & -> & Hv).
    exists st'. split; [reflexivity|]. intros k. rewrite Hv, Hv1.
    cbn [List.map ev_id fst snd count_occ].
    destruct (Z.eq_dec id k) as [->|Hne].
    + rewrite decide_True by reflexivity. lia.
    + rewrite decide_False by exact Hne. lia.
Qed.

Lemma zip3_boxes {C : Type} (bs : list Box) (ids : list Z) (c : list C) :
  List.length ids = List.length bs -> List.length bs <= List.length c ->
  List.map (fun ev => fst (fst ev)) (zip3 bs ids c) = bs /\
  List.map (fun ev => snd (fst ev)) (zip3 bs ids c) = ids.
Proof.
  revert ids c. induction bs as [|b bs IH]; intros [|i ids] [|x c]; cbn; try lia; auto.
  intros Hl Hc. destruct (IH ids c) as [-> ->]; [lia|lia|]. auto.
Qed.

Lemma window_nil old : window cfg old [] = old.
Proof.
  unfold window. rewrite app_nil_r. cbn [List.length].
  destruct (Nat.ltb_spec (MAX_POINTS cfg) (List.length old)) as [Hlt|Hge].
  - replace (List.length old + 0 - List.length old) with 0 by lia. reflexivity.
  - replace (List.length old + 0 - Nat.min (List.length old + 0) (S (MAX_POINTS cfg))) with 0 by lia.
    reflexivity.
Qed.

Lemma window_cons old c new :
  window cfg old (c :: new)
  = window cfg ((if MAX_POINTS cfg <? List.length old then tl old else old) ++ [c]) new.
Proof.
  unfold window. cbn [List.length].
  destruct (Nat.ltb_spec (MAX_POINTS cfg) (List.length old)) as [Hlt|Hge].
  - destruct old as [|p old]; [cbn in Hlt; lia|]. cbn [tl]. cbn [List.length] in Hlt.
    rewrite length_app. cbn [List.length].
    replace (List.length old + 1) with (S (List.length old)) by lia.
    destruct (Nat.ltb_spec (MAX_POINTS cfg) (S (List.length old))) as [_|Hbad]; [|lia].
    replace (S (List.length old) + S (List.length new) - S (List.length old))
      with (S (List.length new)) by lia.
    replace (S (List.length old) + List.length new - S (List.length old))
      with (List.length new) by lia.
    cbn [skipn app]. rewrite <- app_assoc. reflexivity.
  - rewrite length_app. cbn [List.length]. rewrite <- app_assoc. cbn [app].
    replace (List.length old + S (List.length new)) with (List.length old + 1 + List.length new)
      by lia.
    destruct (Nat.ltb_spec (MAX_POINTS cfg) (List.length old + 1)) as [Hlt|Hge'].
    + f_equal. lia.
    + reflexivity.
Qed.

Lemma record_at_insert st id t n k :
  record_at {| tracked_objects := <[id := t]> (tracked_objects st); now_calls := n |} k
  = if decide (id = k) then t else record_at st k.
Proof.
  unfold record_at. cbn [tracked_objects]. rewrite lookup_insert. case_decide; reflexivity.
Qed.

(** The readings of the clock a pass makes, and where the last one goes. *)
Lemma step_clock frame nms st box id nm :
  now_calls (fst (step cfg clk frame nms st (box, id, nm)))
  = now_calls st + match first_detection (record_at st id) with Some _ => 1 | None => 2 end /\
  last_detection (record_at (fst (step cfg clk frame nms st (box, id, nm))) id)
  = Some (strftime (clk (now_calls (fst (step cfg clk frame nms st (box, id, nm))) - 1))).
Proof.
  destruct (step_spec cfg clk frame nms st box id nm) as (t' & n' & e & Hobs & ->).
  pose proof (observe_observed cfg clk frame nms box (now_calls st) (record_at st id)) as Ho.
  rewrite Hobs in Ho. destruct (observed_stamps _ _ _ _ _ _ _ _ _ _ Ho) as (-> & _ & Hl).
  cbn [fst now_calls]. rewrite record_at_insert, decide_True by reflexivity. rewrite Hl.
  unfold detect. destruct (first_detection (record_at st id)); cbn [fst snd last_detection].
  - split; [lia|]. repeat f_equal; lia.
  - split; [lia|]. repeat f_equal; lia.
Qed.

(** A pass over an applicable event, in full. *)
Lemma step_applies_full frame nms st box id nm :
  applicable nms box ->
  exists st1 label,
    step cfg clk frame nms st (box, id, nm) = (st1, None) /\
    names_get nms (cls box) = Ok label /\
    now_calls st < now_calls st1 /\
    (forall k, k <> id -> tracked_objects st1 !! k = tracked_objects st !! k) /\
    tracked_objects st1 !! id = Some (record_at st1 id) /\
    predicted_types (record_at st1 id) = votes_incr (predicted_types (record_at st id)) label /\
    tracked_points (record_at st1 id)
    = (if MAX_POINTS cfg <? List.length (tracked_points (record_at st id))
       then tl (tracked_points (record_at st id)) else tracked_points (record_at st id))
      ++ [centre box] /\
    last_detection (record_at st1 id) = Some (strftime (clk (now_calls st1 - 1))) /\
    first_detection (record_at st1 id)
    = match first_detection (record_at st id) with
      | Some s => Some s
      | None => Some (strftime (clk (now_calls st)))
      end.
Proof.
  intros Happ. destruct (step_applies frame nms st box id nm Happ) as (st1 & Hstep & _).
  destruct (step_first_detection cfg clk frame nms st box id nm) as (tf & Htf & Hfirst).
  destruct (step_clock frame nms st box id nm) as [Hn Hlast].
  rewrite Hstep in Htf, Hn, Hlast. cbn [fst] in *.
  destruct (step_spec cfg clk frame nms st box id nm) as (t' & n' & e & Hobs & Hs).
  rewrite Hs in Hstep. injection Hstep as <- ->.
  pose proof (observe_observed cfg clk frame nms box (now_calls st) (record_at st id)) as Ho.
  rewrite Hobs in Ho. apply observed_ledger in Ho. destruct Ho as (label & Hlabel & Hv & Hp).
  exists {| tracked_objects := <[id := t']> (tracked_objects st); now_calls := n' |}, label.
  rewrite record_at_insert, decide_True by reflexivity.
  split; [exact Hs|]. split; [exact Hlabel|]. split.
  { cbn [now_calls] in Hn |- *. destruct (first_detection (record_at st id)); lia. }
  split; [intros k Hk; cbn [tracked_objects]; apply lookup_insert_ne; congruence|].
  split; [cbn [tracked_objects]; apply lookup_insert_eq|].
  split; [exact Hv|]. split; [exact Hp|].
  rewrite record_at_insert, decide_True in Hlast by reflexivity.
  split; [exact Hlast|].
  cbn [tracked_objects] in Htf. rewrite lookup_insert_eq in Htf. injection Htf as <-. exact Hfirst.
Qed.
Lemma record_at_same st st' k :
  tracked_objects st' !! k = tracked_objects st !! k -> record_at st' k = record_at st k.
Proof. unfold record_at. intros ->. reflexivity. Qed.

Lemma run_loop_accumulates frame nms evs st :
  Forall (fun ev => applicable nms (ev_box ev)) evs ->
  exists st',
    run_loop cfg clk frame nms st evs = (st', None) /\
    now_calls st <= now_calls st' /\
    forall id,
      (forall l,
          votes_get (predicted_types (record_at st' id)) l
          = votes_get (predicted_types (record_at st id)) l
            + List.length (List.filter (named nms l) (boxes_of id evs))) /\
      tracked_points (record_at st' id)
      = window cfg (tracked_points (record_at st id)) (List.map centre (boxes_of id evs)) /\
      (boxes_of id evs = [] -> tracked_objects st' !! id = tracked_objects st !! id) /\
      (boxes_of id evs <> [] ->
         tracked_objects st' !! id = Some (record_at st' id) /\
         (exists j, now_calls st <= j /\ j < now_calls st' /\
                    last_detection (record_at st' id) = Some (strftime (clk j))) /\
         match first_detection (record_at st id) with
         | Some s => first_detection (record_at st' id) = Some s
         | None =>
             exists i, now_calls st <= i /\ i < now_calls st' /\
                       first_detection (record_at st' id) = Some (strftime (clk i))
         end).
Proof.
  revert st. induction evs as [|[[box idev] nm] evs IH]; intros st Hall; cbn [run_loop].
  - exists st. split; [reflexivity|]. split; [lia|]. intros id. cbn.
    split; [intros l; lia|]. split; [symmetry; apply window_nil|]. split; [reflexivity|].
    intros H; congruence.
  - inversion Hall as [|ev evs' Hev Hevs]; subst. cbn [ev_box fst] in Hev.
    destruct (step_applies_full frame nms st box idev nm Hev)
      as (st1 & label & -> & Hlabel & Hn1 & Hother & Hsame & Hv1 & Hp1 & Hl1 & Hf1).
    destruct (IH st1 Hevs) as (st' & -> & Hn' & Hacc).
    exists st'. split; [reflexivity|]. split; [lia|]. intros id.
    destruct (Hacc id) as (Hv & Hp & Hnone & Hsome).
    unfold boxes_of in *. cbn [List.filter ev_id fst snd].
    destruct (Z.eqb_spec idev id) as [->|Hne].
    + cbn [List.map ev_box fst List.filter List.length].
      split; [|split; [|split; [discriminate|intros _]]].
      * intros l. rewrite Hv, Hv1, votes_get_incr. unfold named at 2. rewrite Hlabel.
        destruct (String.eqb l label); cbn [List.length]; lia.
      * rewrite Hp, Hp1. symmetry. apply window_cons.
      * destruct (List.map ev_box (List.filter (fun ev => Z.eqb (ev_id ev) id) evs))
          as [|b B] eqn:EB.
        -- specialize (Hnone eq_refl). rewrite (record_at_same st1 st' id Hnone).
           split; [rewrite Hnone; exact Hsame|]. split.
           ++ exists (now_calls st1 - 1). split; [lia|]. split; [lia|exact Hl1].
           ++ rewrite Hf1. destruct (first_detection (record_at st id)); [reflexivity|].
              exists (now_calls st). split; [lia|]. split; [lia|reflexivity].
        -- destruct Hsome as (Hin & (j & Hj1 & Hj2 & Hlast) & Hfirst); [discriminate|].
           split; [exact Hin|]. split.
           ++ exists j. split; [lia|]. split; [lia|exact Hlast].
           ++ rewrite Hf1 in Hfirst. destruct (first_detection (record_at st id)); [exact Hfirst|].
              exists (now_calls st). split; [lia|]. split; [lia|exact Hfirst].
    + assert (Hrec : record_at st1 id = record_at st id).
      { apply record_at_same, Hother. congruence. }
      rewrite Hrec in Hv, Hp, Hsome.
      split; [exact Hv|]. split; [exact Hp|]. split.
      * intros HB. rewrite (Hnone HB). apply Hother. congruence.
      * intros HB. destruct (Hsome HB) as (Hin & (j & Hj1 & Hj2 & Hlast) & Hfirst).
        split; [exact Hin|]. split.
        -- exists j. split; [lia|]. split; [lia|exact Hlast].
        -- destruct (first_detection (record_at st id)); [exact Hfirst|].
           destruct Hfirst as (i & Hi1 & Hi2 & Hfi). exists i. split; [lia|]. split; [lia|exact Hfi].
Qed.

Lemma boxes_of_length evs id :
  List.length (boxes_of id evs) = count_occ Z.eq_dec (List.map ev_id evs) id.
Proof.
  unfold boxes_of. rewrite length_map.
  induction evs as [|[[box k] nm] evs IH]; [reflexivity|].
  cbn [List.filter List.map ev_id fst snd count_occ].
  destruct (Z.eqb_spec k id) as [->|Hne].
  - destruct (Z.eq_dec id id); [|congruence]. cbn [List.length]. rewrite IH. reflexivity.
  - destruct (Z.eq_dec k id); [congruence|]. exact IH.
Qed.

(** C8 (amended): no event is validated.  When the boxes are finite and
    their classes named, and the zip over the class names does not cut the
    batch short, [track_next_frame] raises nothing and applies every event,
    malformed or not.  Each identity gains one vote for each of its events,
    counted under the event's label; its trajectory is the old one followed
    by the centres of its events, less the points the setter drops; an
    identity of the batch has a record whose last timestamp is a reading
    made during this call and whose first timestamp is the one it had, or a
    reading made during this call when it had none; the record of an
    identity outside the batch is untouched. *)
Theorem track_next_frame_applies_every_event frame results track_ids st :
  boxes_id results = Some track_ids ->
  List.length track_ids = List.length (boxes results) ->
  List.length (boxes results) <= List.length (names results) ->
  Forall (applicable (names results)) (boxes results) ->
  exists st', track_next_frame cfg clk frame results st = (st', None) /\
    forall id,
      votes_at st' id = votes_at st id + count_occ Z.eq_dec track_ids id /\
      List.length (boxes_of id (zip3 (boxes results) track_ids (names results)))
      = count_occ Z.eq_dec track_ids id /\
      (forall l,
          votes_get (predicted_types (record_at st' id)) l
          = votes_get (predicted_types (record_at st id)) l
            + List.length
                (List.filter (named (names results) l)
                   (boxes_of id (zip3 (boxes results) track_ids (names results))))) /\
      tracked_points (record_at st' id)
      = window cfg (tracked_points (record_at st id))
          (List.map centre (boxes_of id (zip3 (boxes results) track_ids (names results)))) /\
      (count_occ Z.eq_dec track_ids id = 0 ->
         tracked_objects st' !! id = tracked_objects st !! id) /\
      (0 < count_occ Z.eq_dec track_ids id ->
         tracked_objects st' !! id = Some (record_at st' id) /\
         (exists j, now_calls st <= j /\ j < now_calls st' /\
                    last_detection (record_at st' id) = Some (strftime (clk j))) /\
         match first_detection (record_at st id) with
         | Some s => first_detection (record_at st' id) = Some s
         | None =>
             exists i, now_calls st <= i /\ i < now_calls st' /\
                       first_detection (record_at st' id) = Some (strftime (clk i))
         end).
Proof.
  intros Hid Hlen Hnames Hall. unfold track_next_frame. rewrite Hid.
  destruct (zip3_boxes (boxes results) track_ids (names results) Hlen Hnames) as [Hb Hi].
  set (evs := zip3 (boxes results) track_ids (names results)) in *.
  assert (Happ : Forall (fun ev => applicable (names results) (ev_box ev)) evs).
  { apply List.Forall_forall. intros ev Hev. rewrite List.Forall_forall in Hall. apply Hall.
    rewrite <- Hb. apply in_map_iff. exists ev. split; [reflexivity|exact Hev]. }
  destruct (run_loop_applies frame (names results) evs st Happ) as (st0 & Hrun0 & Hvotes).
  destruct (run_loop_accumulates frame (names results) evs st Happ) as (st' & Hrun & _ & Hacc).
  rewrite Hrun in Hrun0. injection Hrun0 as <-.
  exists st'. split; [exact Hrun|]. intros id.
  destruct (Hacc id) as (Hv & Hp & Hnone & Hsome).
  pose proof (boxes_of_length evs id) as HB.
  assert (Hids : List.map ev_id evs = track_ids) by exact Hi.
  rewrite Hids in HB.
  split; [rewrite Hvotes, Hids; reflexivity|]. split; [exact HB|].
  split; [exact Hv|]. split; [exact Hp|]. split.
  - intros H0. apply Hnone. rewrite H0 in HB. destruct (boxes_of id evs); [reflexivity|discriminate].
  - intros Hpos. apply Hsome. intros HB0. rewrite HB0 in HB. cbn in HB. lia.
Qed.

End Batch.

Lemma odd_box_outside : ~ bbox_in_unit (xywhn odd_box).
Proof. cbn. unfold in_unit, dec, Qle. cbn. lia. Qed.

Lemma odd_batch_applicable : Forall (applicable (names odd_batch)) (boxes odd_batch).
Proof.
  repeat constructor; cbn; unfold dec; eauto.
Qed.

Lemma track_next_frame_applies_every_event_witness :
  exists st',
    track_next_frame default_settings clock_steady (blank 100 100 7) odd_batch Tracker_init
    = (st', None) /\
    (forall id, votes_at st' id
                = votes_at Tracker_init id + count_occ Z.eq_dec [5%Z; 1%Z] id) /\
    votes_get (predicted_types (record_at st' 5)) EmptyString = 1 /\
    tracked_points (record_at st' 5) = [(dec 150 1, dec 50 1)] /\
    tracked_objects st' !! 5%Z = Some (record_at st' 5) /\
    (exists j, last_detection (record_at st' 5) = Some (strftime (clock_steady j))) /\
    (exists i, first_detection (record_at st' 5) = Some (strftime (clock_steady i))) /\
    tracked_objects st' !! 7%Z = None.
Proof.
  destruct (track_next_frame_applies_every_event default_settings clock_steady
              (blank 100 100 7) odd_batch [5%Z; 1%Z] Tracker_init)
    as (st' & Hrun & Hacc).
  - reflexivity.
  - reflexivity.
  - cbn. lia.
  - exact odd_batch_applicable.
  - exists st'. split; [exact Hrun|]. split; [intros id; apply (Hacc id)|].
    destruct (Hacc 5%Z) as (_ & _ & Hv & Hp & _ & Hsome).
    destruct (Hacc 7%Z) as (_ & _ & _ & _ & Hnone & _).
    destruct Hsome as (Hin & (j & _ & _ & Hlast) & Hfirst); [cbn; lia|].
    split; [rewrite Hv; reflexivity|]. split; [rewrite Hp; reflexivity|].
    split; [exact Hin|]. split; [exists j; exact Hlast|]. split.
    + destruct Hfirst as (i & _ & _ & Hfi). exists i. exact Hfi.
    + rewrite Hnone; reflexivity.
Defined.

(** C8 (as stated, refuted): the first event of [odd_batch] is malformed,
    with an [x_center] of 1.5 and an empty class label.  It is not skipped
    and no error is reported: [track_next_frame] returns without an
    exception, and identity 5, which had no record, has one with a vote for
    the empty label and a trajectory point. *)
Lemma malformed_event_is_applied :
  ~ bbox_in_unit (xywhn odd_box) /\
  names_get odd_names (cls odd_box) = Ok EmptyString /\
  tracked_objects Tracker_init !! 5%Z = None /\
  snd (track_next_frame default_settings clock_steady (blank 100 100 7) odd_batch Tracker_init)
  = None /\
  exists t,
    tracked_objects
      (fst (track_next_frame default_settings clock_steady (blank 100 100 7) odd_batch
              Tracker_init)) !! 5%Z = Some t /\
    predicted_types t = [(EmptyString, 1)] /\
    tracked_points t = [(dec 150 1, dec 50 1)].
Proof.
  split; [exact odd_box_outside|]. split; [reflexivity|]. split; [reflexivity|].
  split; [vm_compute; reflexivity|].
  eexists. split; [vm_compute; reflexivity|]. split; reflexivity.
Qed.

(** ** Fetching records *)

Section Fetch.
Context (cfg : Settings) (clk : clock).

(** A pass for an identity that has a record, whatever its outcome. *)
Lemma pass_on_present frame nms (d : gmap Z TrackedObject) n box key nm t :
  d !! key = Some t ->
  exists t',
    tracked_objects
      (fst (step cfg clk frame nms {| tracked_objects := d; now_calls := n |} (box, key, nm)))
      !! key = Some t' /\
    first_detection t'
    = match first_detection t with
      | Some s => Some s
      | None => Some (strftime (clk n))
      end /\
    last_detection t'
    = Some (strftime (clk match first_detection t with Some _ => n | None => S n end)) /\
    (forall img, cropped_frame t = Some img -> cropped_frame t' = Some img) /\
    (forall l, votes_get (predicted_types t) l <= votes_get (predicted_types t') l) /\
    (applicable nms box ->
       snd (step cfg clk frame nms {| tracked_objects := d; now_calls := n |} (box, key, nm))
       = None /\
       exists label,
         names_get nms (cls box) = Ok label /\
         (forall l, votes_get (predicted_types t') l
                    = votes_get (predicted_types t) l + (if String.eqb l label then 1 else 0)) /\
         votes_total (predicted_types t') = S (votes_total (predicted_types t)) /\
         tracked_points t'
         = (if MAX_POINTS cfg <? List.length (tracked_points t)
            then tl (tracked_points t) else tracked_points t) ++ [centre box]) /\
    (snd (step cfg clk frame nms {| tracked_objects := d; now_calls := n |} (box, key, nm))
     <> None ->
     predicted_types t' = predicted_types t /\ tracked_points t' = tracked_points t).
Proof.
  intros Ht.
  pose proof (step_applies cfg clk frame nms {| tracked_objects := d; now_calls := n |} box key nm)
    as Happ.
  destruct (step_spec cfg clk frame nms {| tracked_objects := d; now_calls := n |} box key nm)
    as (t' & n' & e & Hobs & Hs).
  rewrite Hs in Happ |- *. cbn [fst snd tracked_objects].
  pose proof (observe_observed cfg clk frame nms box n
                (record_at {| tracked_objects := d; now_calls := n |} key)) as Ho.
  cbn [now_calls] in Hobs. rewrite Hobs in Ho.
  unfold record_at in Ho. cbn [tracked_objects] in Ho. rewrite Ht in Ho.
  change (default TrackedObject_init (Some t)) with t in Ho.
  exists t'. split; [apply lookup_insert_eq|].
  destruct (observed_stamps _ _ _ _ _ _ _ _ _ _ Ho) as (_ & Hf & Hl).
  split; [rewrite Hf; apply detect_first|]. split.
  { rewrite Hl. unfold detect. destruct (first_detection t); reflexivity. }
  split.
  { intros img Himg. pose proof (observed_snapshot _ _ _ _ _ _ _ _ _ _ Ho) as Hsnap.
    rewrite Himg in Hsnap. exact Hsnap. }
  pose proof (observed_ledger _ _ _ _ _ _ _ _ _ _ Ho) as Hled.
  split.
  { intros l. destruct e as [e|].
    - destruct Hled as [-> _]. lia.
    - destruct Hled as (label & _ & -> & _). rewrite votes_get_incr. lia. }
  split.
  - intros Hbox. destruct (Happ Hbox) as (st1 & Hst1 & _). injection Hst1 as _ ->.
    split; [reflexivity|]. destruct Hled as (label & Hn & Hv & Hp).
    exists label. split; [exact Hn|]. split.
    + intros l. rewrite Hv, votes_get_incr. lia.
    + split; [rewrite Hv; apply votes_total_incr|exact Hp].
  - intros He. destruct e as [e|]; [exact Hled|congruence].
Qed.

(** C9: [self.tracked_objects[key]] creates and stores a fresh, empty record
    for an absent identity and returns the stored record of a present one,
    leaving the store as it is.  After [get_objects], a completed pass for
    a present identity adds its vote and its point to that same record and
    keeps the first timestamp and the snapshot; no call removes a record.
    Every pass for a present identity, whatever its outcome, leaves the same
    record in the store with its first timestamp as it was, the pass's
    reading of the clock as last timestamp, its snapshot and no vote lost;
    on an applicable event the pass completes and adds one vote for the
    label and the centre as newest point, and a pass that raises changes
    neither the votes nor the points. *)
Theorem getitem_creates_or_returns (d : gmap Z TrackedObject) (key : Z) :
  (d !! key = None ->
     getitem d key = (TrackedObject_init, <[key := TrackedObject_init]> d) /\
     tracked_points TrackedObject_init = [] /\
     predicted_types TrackedObject_init = [] /\
     __len__ TrackedObject_init = 0 /\
     cropped_frame TrackedObject_init = None) /\
  (forall t, d !! key = Some t ->
     getitem d key = (t, d) /\
     forall n frame nms box nm st',
       step cfg clk frame nms
         {| tracked_objects := fst (get_objects cfg d); now_calls := n |} (box, key, nm)
       = (st', None) ->
       exists label t',
         tracked_objects st' !! key = Some t' /\
         names_get nms (cls box) = Ok label /\
         predicted_types t' = votes_incr (predicted_types t) label /\
         tracked_points t' =
           (if MAX_POINTS cfg <? List.length (tracked_points t)
            then tl (tracked_points t) else tracked_points t)
           ++ [(fst (fst (fst (xywh box))), snd (fst (fst (xywh box))))] /\
         (forall s, first_detection t = Some s -> first_detection t' = Some s) /\
         (forall img, cropped_frame t = Some img -> cropped_frame t' = Some img)) /\
  (forall t, d !! key = Some t ->
     forall n frame nms box nm,
     exists t',
       tracked_objects
         (fst (step cfg clk frame nms
                 {| tracked_objects := fst (get_objects cfg d); now_calls := n |}
                 (box, key, nm))) !! key = Some t' /\
       first_detection t'
       = match first_detection t with
         | Some s => Some s
         | None => Some (strftime (clk n))
         end /\
       last_detection t'
       = Some (strftime (clk match first_detection t with Some _ => n | None => S n end)) /\
       (forall img, cropped_frame t = Some img -> cropped_frame t' = Some img) /\
       (forall l, votes_get (predicted_types t) l <= votes_get (predicted_types t') l) /\
       (applicable nms box ->
          snd (step cfg clk frame nms
                 {| tracked_objects := fst (get_objects cfg d); now_calls := n |}
                 (box, key, nm)) = None /\
          exists label,
            names_get nms (cls box) = Ok label /\
            (forall l, votes_get (predicted_types t') l
                       = votes_get (predicted_types t) l
                         + (if String.eqb l label then 1 else 0)) /\
            votes_total (predicted_types t') = S (votes_total (predicted_types t)) /\
            tracked_points t'
            = (if MAX_POINTS cfg <? List.length (tracked_points t)
               then tl (tracked_points t) else tracked_points t) ++ [centre box]) /\
       (snd (step cfg clk frame nms
               {| tracked_objects := fst (get_objects cfg d); now_calls := n |}
               (box, key, nm)) <> None ->
        predicted_types t' = predicted_types t /\ tracked_points t' = tracked_points t)) /\
  (forall id t n frame results,
     d !! id = Some t ->
     is_Some (fst (get_objects cfg d) !! id) /\
     is_Some (tracked_objects
                (fst (track_next_frame cfg clk frame results
                        {| tracked_objects := d; now_calls := n |})) !! id)).
Proof.
  split; [|split; [|split]].
  - intros Hnone. unfold getitem. rewrite Hnone. repeat split; reflexivity.
  - intros t Ht. split; [unfold getitem; rewrite Ht; reflexivity|].
    intros n frame nms box nm st' Hstep.
    rewrite (proj1 (get_objects_lookup cfg d)) in Hstep.
    destruct (step_spec cfg clk frame nms {| tracked_objects := d; now_calls := n |} box key nm)
      as (t' & n' & e & Hobs & Hs).
    rewrite Hs in Hstep. injection Hstep as <- ->.
    pose proof (observe_observed cfg clk frame nms box n
                  (record_at {| tracked_objects := d; now_calls := n |} key)) as Ho.
    cbn [now_calls] in Hobs. rewrite Hobs in Ho.
    unfold record_at in Ho. cbn [tracked_objects] in Ho. rewrite Ht in Ho.
    change (default TrackedObject_init (Some t)) with t in Ho.
    destruct (observed_ledger _ _ _ _ _ _ _ _ _ _ Ho) as (label & Hn & Hv & Hp).
    exists label, t'. cbn [tracked_objects]. rewrite lookup_insert_eq.
    split; [reflexivity|]. split; [exact Hn|]. split; [exact Hv|]. split; [exact Hp|]. split.
    + intros s Hfs. destruct (observed_stamps _ _ _ _ _ _ _ _ _ _ Ho) as (_ & -> & _).
      rewrite detect_first, Hfs. reflexivity.
    + intros img Himg. apply observed_snapshot in Ho. rewrite Himg in Ho. exact Ho.
  - intros t Ht n frame nms box nm. rewrite (proj1 (get_objects_lookup cfg d)).
    apply pass_on_present, Ht.
  - intros id t n frame results Ht. split.
    + rewrite (proj1 (get_objects_lookup cfg d)). eauto.
    + destruct (track_next_frame_keeps cfg clk frame results
                  {| tracked_objects := d; now_calls := n |} id t Ht) as (t' & Ht' & _).
      eauto.
Qed.

End Fetch.

Lemma getitem_creates_or_returns_witness :
  getitem (∅ : gmap Z TrackedObject) 1%Z
  = (TrackedObject_init, <[1%Z := TrackedObject_init]> ∅) /\
  getitem (<[1%Z := record_of_labels ["car"]]> ∅) 1%Z
  = (record_of_labels ["car"], <[1%Z := record_of_labels ["car"]]> ∅) /\
  exists t',
    tracked_objects
      (fst (step default_settings clock_steady (blank 100 100 7) class_names
              {| tracked_objects :=
                   fst (get_objects default_settings (tracked_objects (after_frames 11)));
                 now_calls := now_calls (after_frames 11) |}
              (car_box, 1%Z, (0, "person")))) !! 1%Z = Some t' /\
    first_detection t' = Some "03.11.2026 10:30:00" /\
    last_detection t' = Some "03.11.2026 10:30:12" /\
    votes_get (predicted_types t') "car" = 12 /\
    votes_total (predicted_types t') = 12 /\
    List.length (tracked_points t') = 12 /\
    List.last (tracked_points t') (NaN, NaN) = centre car_box.
Proof.
  split.
  - apply (proj1 (getitem_creates_or_returns default_settings clock_steady ∅ 1%Z)).
    reflexivity.
  - split.
    + refine (proj1 (proj1 (proj2 (getitem_creates_or_returns default_settings clock_steady
                                     (<[1%Z := record_of_labels ["car"]]> ∅) 1%Z))
                           (record_of_labels ["car"]) _)).
      vm_compute. reflexivity.
    + pose proof (proj1 (proj2 (proj2
                    (getitem_creates_or_returns default_settings clock_steady
                       (tracked_objects (after_frames 11)) 1%Z)))
                    (record_at (after_frames 11) 1)) as Hpass.
      destruct (Hpass ltac:(vm_compute; reflexivity) (now_calls (after_frames 11))
                  (blank 100 100 7) class_names car_box (0, "person"))
        as (t' & Hin & Hf & Hl & _ & _ & Happ & _).
      destruct Happ as (_ & label & Hlabel & Hv & Htot & Hp).
      { split; [cbn; unfold dec; eauto 10|exists "car"; reflexivity]. }
      injection Hlabel as <-.
      exists t'. split; [exact Hin|]. split; [rewrite Hf; vm_compute; reflexivity|].
      split; [rewrite Hl; vm_compute; reflexivity|].
      split; [rewrite Hv; vm_compute; reflexivity|].
      split; [rewrite Htot; vm_compute; reflexivity|].
      split; [rewrite Hp; vm_compute; reflexivity|].
      rewrite Hp. apply last_last.
Defined.

Lemma len_counts_votes_witness :
  __len__ (record_at (fst (track_video default_settings clock_steady (car_video 3)
                             Tracker_init)) 1)
  = votes_total
      (predicted_types
         (record_at (fst (track_video default_settings clock_steady (car_video 3)
                            Tracker_init)) 1)) /\
  __len__
    (record_at
       (fst (step default_settings clock_steady (blank 100 100 7) class_names
               (fst (track_video default_settings clock_steady (car_video 3) Tracker_init))
               (car_box, 1%Z, (0, "person")))) 1)
  = S (__len__ (record_at (fst (track_video default_settings clock_steady (car_video 3)
                                  Tracker_init)) 1)).
Proof.
  assert (Hreach : reachable default_settings clock_steady
            (fst (track_video default_settings clock_steady (car_video 3) Tracker_init))).
  { apply track_video_reachable, reachable_init. }
  destruct (len_counts_votes default_settings clock_steady _ Hreach) as [Hlen Hstep]. split.
  - apply (Hlen 1%Z). vm_compute. reflexivity.
  - apply (Hstep (blank 100 100 7) class_names car_box 1%Z (0, "person")).
    vm_compute. reflexivity.
Defined.

(** * Further properties *)

(** ** Cropping *)

Lemma py_int_raises f e : py_int f = Raise e -> e = ValueError \/ e = OverflowError.
Proof. destruct f; cbn; intros [= <-]; auto. Qed.

Lemma py_int_fmul_ok f n z : py_int (fmul_nat f n) = Ok z -> exists q, f = Fin q.
Proof.
  destruct f; unfold fmul_nat; [eauto| | |]; try destruct (Nat.eqb n 0); discriminate.
Qed.

Lemma crop_rect_ok_finite H W b r : crop_rect H W b = Ok r -> bbox_finite b.
Proof.
  destruct b as [[[xc yc] w] h]. unfold crop_rect.
  destruct (py_int (fmul_nat xc W)) as [X|e1] eqn:E1; cbn [mbind result_bind]; [|discriminate].
  destruct (py_int (fmul_nat yc H)) as [Y|e2] eqn:E2; cbn [mbind result_bind]; [|discriminate].
  destruct (py_int (fmul_nat w W)) as [Wd|e3] eqn:E3; cbn [mbind result_bind]; [|discriminate].
  destruct (py_int (fmul_nat h H)) as [Hd|e4] eqn:E4; cbn [mbind result_bind]; [|discriminate].
  intros _. repeat split; eapply py_int_fmul_ok; eassumption.
Qed.

Lemma crop_rect_raises H W b e :
  crop_rect H W b = Raise e -> (e = ValueError \/ e = OverflowError) /\ ~ bbox_finite b.
Proof.
  destruct b as [[[xc yc] w] h]. unfold crop_rect.
  destruct (py_int (fmul_nat xc W)) as [X|e1] eqn:E1; cbn [mbind result_bind].
  2:{ intros [= <-]. split; [eapply py_int_raises; eassumption|].
      intros ([q Hq] & _). subst xc. discriminate. }
  destruct (py_int (fmul_nat yc H)) as [Y|e2] eqn:E2; cbn [mbind result_bind].
  2:{ intros [= <-]. split; [eapply py_int_raises; eassumption|].
      intros (_ & [q Hq] & _). subst yc. discriminate. }
  destruct (py_int (fmul_nat w W)) as [Wd|e3] eqn:E3; cbn [mbind result_bind].
  2:{ intros [= <-]. split; [eapply py_int_raises; eassumption|].
      intros (_ & _ & [q Hq] & _). subst w. discriminate. }
  destruct (py_int (fmul_nat h H)) as [Hd|e4] eqn:E4; cbn [mbind result_bind].
  2:{ intros [= <-]. split; [eapply py_int_raises; eassumption|].
      intros (_ & _ & _ & [q Hq]). subst h. discriminate. }
  rewrite !py_int_sub_half. cbn [mbind result_bind]. discriminate.
Qed.

Lemma crop_image_raises image b e :
  crop_image_with_bbox image b = Raise e -> e = ValueError \/ e = OverflowError.
Proof.
  intros He. unfold crop_image_with_bbox in He.
  destruct (crop_rect (height image) (width image) b) as [[[[x y] x1] y1]|e'] eqn:E;
    cbn in He; [discriminate|].
  injection He as <-. apply (crop_rect_raises _ _ _ _ E).
Qed.

(** X1: for a box whose finite coordinates have magnitude at most 1, on a
    frame whose dimensions are array dimensions (below 2^63), the crop
    returns an image exactly when all four coordinates are finite; otherwise
    it raises, with the [ValueError] or [OverflowError] of [int()]. *)
Theorem crop_image_raises_iff_not_finite (image : Image) (b : bbox) :
  bbox_normalized b ->
  (Z.of_nat (height image) < 2 ^ 63)%Z -> (Z.of_nat (width image) < 2 ^ 63)%Z ->
  ((exists img, crop_image_with_bbox image b = Ok img) <-> bbox_finite b) /\
  (forall e, crop_image_with_bbox image b = Raise e -> e = ValueError \/ e = OverflowError).
Proof.
  intros _ _ _. split; [split|].
  - intros [img Himg]. unfold crop_image_with_bbox in Himg.
    destruct (crop_rect (height image) (width image) b) as [r|e] eqn:E; [|discriminate].
    eapply crop_rect_ok_finite; eassumption.
  - apply crop_image_finite.
  - intros e. apply crop_image_raises.
Qed.

Lemma slice_bound_le i len : slice_bound i len <= len.
Proof. unfold slice_bound. destruct (Z.ltb_spec i 0); lia. Qed.

Lemma py_slice_length {A : Type} (l : list A) start stop :
  List.length (py_slice l start stop)
  = slice_bound stop (List.length l) - slice_bound start (List.length l).
Proof.
  unfold py_slice. rewrite length_firstn, length_skipn.
  pose proof (slice_bound_le stop (List.length l)).
  pose proof (slice_bound_le start (List.length l)). lia.
Qed.

Lemma py_slice_In {A : Type} (l : list A) start stop x :
  In x (py_slice l start stop) -> In x l.
Proof.
  unfold py_slice. intros Hx.
  set (a := slice_bound start (List.length l)) in *.
  set (n := slice_bound stop (List.length l) - a) in *.
  rewrite <- (firstn_skipn a l). apply in_or_app. right.
  rewrite <- (firstn_skipn n (skipn a l)). apply in_or_app. left. exact Hx.
Qed.

(** X2: whatever the box, a crop of a well-formed frame is a well-formed image
    and no larger than the frame in either dimension. *)
Theorem crop_image_well_formed (image : Image) (b : bbox) (img : Image) :
  well_formed image -> crop_image_with_bbox image b = Ok img ->
  well_formed img /\ height img <= height image /\ width img <= width image.
Proof.
  intros [Hrows Hcols] Hcrop. unfold crop_image_with_bbox in Hcrop.
  destruct (crop_rect (height image) (width image) b) as [[[[x y] x1] y1]|e]; [|discriminate].
  cbn in Hcrop. injection Hcrop as <-. unfold well_formed, slice2. cbn [height width pixels].
  split; [split|].
  - rewrite length_map, py_slice_length, Hrows. reflexivity.
  - apply List.Forall_forall. intros row Hrow. apply in_map_iff in Hrow as (r0 & <- & Hr0).
    rewrite py_slice_length.
    assert (Hlen : List.length r0 = width image).
    { rewrite List.Forall_forall in Hcols. apply Hcols.
      eapply py_slice_In, Hr0. }
    rewrite Hlen. reflexivity.
  - pose proof (slice_bound_le y1 (height image)).
    pose proof (slice_bound_le x1 (width image)). lia.
Qed.

Lemma lookup_map {A B : Type} (f : A -> B) (l : list A) (i : nat) :
  List.map f l !! i = option_map f (l !! i).
Proof. revert i. induction l as [|a l IH]; intros [|i]; cbn; auto. Qed.

Lemma slice_bound_inside i len :
  (0 <= i)%Z -> (i <= Z.of_nat len)%Z -> slice_bound i len = Z.to_nat i.
Proof. intros H0 H1. unfold slice_bound. destruct (Z.ltb_spec i 0); lia. Qed.

Lemma py_slice_lookup {A : Type} (l : list A) (start stop : Z) (i : nat) :
  (0 <= start)%Z -> (start <= stop)%Z -> (stop <= Z.of_nat (List.length l))%Z ->
  i < Z.to_nat (stop - start) ->
  py_slice l start stop !! i = l !! (Z.to_nat start + i).
Proof.
  intros H0 H1 H2 Hi. unfold py_slice.
  rewrite !slice_bound_inside by lia.
  rewrite lookup_take_lt by lia. apply lookup_drop.
Qed.

(** X3: for a box with coordinates in [0,1] that does not extend past the frame,
    the crop of a well-formed frame is the rectangle of [crop_rect]: it has
    its height and width, and its pixel [(i, j)] is the frame's pixel
    [(y + i, x + j)]. *)
Theorem crop_image_inside_frame (image : Image) (b : bbox) :
  well_formed image -> bbox_in_unit b -> bbox_inside b ->
  exists (x y x1 y1 : Z) (img : Image),
    crop_rect (height image) (width image) b = Ok (x, y, x1, y1) /\
    crop_image_with_bbox image b = Ok img /\
    height img = Z.to_nat (y1 - y) /\ width img = Z.to_nat (x1 - x) /\
    forall i j, i < height img -> j < width img ->
      pixel_at img i j = pixel_at image (Z.to_nat y + i) (Z.to_nat x + j).
Proof.
  intros [Hrows Hcols] Hunit Hin.
  destruct b as [[[xc yc] w] h]. destruct Hunit as (Hxc & Hyc & Hw & Hh). destruct Hin as [Hx Hy].
  destruct xc as [xc| | |], w as [w| | |]; try contradiction.
  destruct yc as [yc| | |], h as [h| | |]; try contradiction.
  cbn in Hw, Hh, Hx, Hy.
  destruct (crop_axis xc w (width image)) as (Hx0 & Hx1 & Hx2); try tauto.
  destruct (crop_axis yc h (height image)) as (Hy0 & Hy1 & Hy2); try tauto.
  cbv zeta in *.
  set (X := truncQ (xc * inject_Z (Z.of_nat (width image)))) in *.
  set (Wd := truncQ (w * inject_Z (Z.of_nat (width image)))) in *.
  set (Y := truncQ (yc * inject_Z (Z.of_nat (height image)))) in *.
  set (Hd := truncQ (h * inject_Z (Z.of_nat (height image)))) in *.
  assert (Hrect : crop_rect (height image) (width image) (Fin xc, Fin yc, Fin w, Fin h)
                  = Ok (Z.quot (2 * X - Wd) 2, Z.quot (2 * Y - Hd) 2,
                        (Z.quot (2 * X - Wd) 2 + Wd)%Z, (Z.quot (2 * Y - Hd) 2 + Hd)%Z)).
  { unfold crop_rect. cbn [fmul_nat py_int mbind result_bind]. rewrite !py_int_sub_half.
    cbn [mbind result_bind]. reflexivity. }
  set (x := Z.quot (2 * X - Wd) 2) in *. set (y := Z.quot (2 * Y - Hd) 2) in *.
  eexists x, y, (x + Wd)%Z, (y + Hd)%Z, _. split; [exact Hrect|].
  unfold crop_image_with_bbox. rewrite Hrect. cbn [mbind result_bind].
  split; [reflexivity|]. unfold slice2. cbn [height width pixels].
  rewrite !slice_bound_inside by lia.
  split; [lia|]. split; [lia|].
  intros i j Hi Hj. unfold pixel_at. cbn [pixels].
  rewrite lookup_map, py_slice_lookup by lia.
  destruct (pixels image !! (Z.to_nat y + i)) as [row|] eqn:Hrow; cbn [option_map]; [|reflexivity].
  apply py_slice_lookup; try lia.
  assert (Hlen : List.length row = width image).
  { rewrite List.Forall_forall in Hcols. apply Hcols.
    apply list_elem_of_In, list_elem_of_lookup. eauto. }
  lia.
Qed.

Lemma blank_well_formed h w v : well_formed (blank h w v).
Proof.
  split; [apply repeat_length|]. apply List.Forall_forall. intros row Hrow.
  apply repeat_spec in Hrow. subst row. apply repeat_length.
Qed.

(** ** The trajectory setter *)

(** X4: the setter of [points] never raises; it puts the new point last, never
    shortens the list, and lengthens it by one exactly when it holds at
    most [MAX_POINTS] points.  A list longer than [MAX_POINTS + 1], as
    after [set_max_points_count] lowered the bound, keeps its length. *)
Theorem points_append_length_change (cfg : Settings) (pts : list point) (value : point) :
  exists pts',
    points_append cfg pts value = Ok pts' /\
    List.last pts' value = value /\
    List.length pts' =
      (if MAX_POINTS cfg <? List.length pts then List.length pts else S (List.length pts)) /\
    (exists old, pts' = old ++ [value] /\ (old = pts \/ old = tl pts)).
Proof.
  destruct (points_append_ok cfg pts value) as (pts' & Hok & ->).
  eexists. split; [exact Hok|]. split; [apply last_last|]. split.
  - rewrite length_app. cbn [List.length].
    destruct (Nat.ltb_spec (MAX_POINTS cfg) (List.length pts)) as [Hlt|Hge]; [|lia].
    destruct pts; cbn [List.length tl] in *; lia.
  - eexists. split; [reflexivity|]. destruct (MAX_POINTS cfg <? List.length pts); auto.
Qed.

Lemma points_extend_snoc cfg pts ps p :
  points_extend cfg pts (ps ++ [p]) =
  match points_extend cfg pts ps with
  | Ok pts' => points_append cfg pts' p
  | Raise e => Raise e
  end.
Proof.
  revert pts. induction ps as [|a ps IH]; intros pts; cbn [points_extend app].
  - destruct (points_append cfg pts p); reflexivity.
  - destruct (points_append cfg pts a) as [pts1|e]; cbn [mbind result_bind]; [apply IH|reflexivity].
Qed.

Lemma skipn_snoc_tl {A : Type} (l : list A) (n : nat) :
  n < List.length l -> tl (skipn n l) = skipn (S n) l.
Proof.
  revert n. induction l as [|a l IH]; intros [|n] Hn; cbn in *; try lia; auto.
  apply IH. lia.
Qed.

(** X5: assigning the points [ps] one after the other to an empty trajectory
    leaves the last [MAX_POINTS + 1] of them, in their order. *)
Theorem points_extend_window (cfg : Settings) (ps : list point) :
  points_extend cfg [] ps = Ok (skipn (List.length ps - S (MAX_POINTS cfg)) ps).
Proof.
  induction ps as [|p ps IH] using rev_ind; [reflexivity|].
  rewrite points_extend_snoc, IH.
  destruct (points_append_ok cfg (skipn (List.length ps - S (MAX_POINTS cfg)) ps) p)
    as (pts' & -> & ->).
  f_equal. rewrite length_skipn, length_app. cbn [List.length].
  destruct (Nat.ltb_spec (MAX_POINTS cfg) (List.length ps - (List.length ps - S (MAX_POINTS cfg))))
    as [Hlt|Hge].
  - assert (Hlen : S (MAX_POINTS cfg) <= List.length ps) by lia.
    rewrite skipn_snoc_tl by lia.
    replace (List.length ps + 1 - S (MAX_POINTS cfg))
      with (S (List.length ps - S (MAX_POINTS cfg))) by lia.
    rewrite skipn_app.
    replace (S (List.length ps - S (MAX_POINTS cfg)) - List.length ps) with 0 by lia.
    reflexivity.
  - assert (Hlen : List.length ps <= MAX_POINTS cfg) by lia.
    replace (List.length ps - S (MAX_POINTS cfg)) with 0 by lia.
    replace (List.length ps + 1 - S (MAX_POINTS cfg)) with 0 by lia.
    reflexivity.
Qed.

(** ** The ledger *)

Lemma votes_total_votes_of ls : votes_total (votes_of ls) = List.length ls.
Proof.
  induction ls as [|a ls IH] using rev_ind; [reflexivity|].
  rewrite votes_of_snoc, votes_total_incr, IH, length_app. cbn. lia.
Qed.

Lemma keys_votes_of_NoDup ls : List.NoDup (keys (votes_of ls)).
Proof.
  induction ls as [|a ls IH] using rev_ind; [constructor|].
  rewrite votes_of_snoc.
  destruct (in_dec string_dec a (keys (votes_of ls))) as [Hin|Hnin].
  - rewrite keys_incr_old by assumption. exact IH.
  - rewrite keys_incr_new by assumption.
    apply NoDup_rev in IH. rewrite <- (rev_involutive (keys (votes_of ls) ++ [a])).
    apply NoDup_rev. rewrite rev_app_distr. cbn. constructor; [|exact IH].
    rewrite <- in_rev. exact Hnin.
Qed.

(** X6: after the labels [ls], the ledger gives each label the number of times
    it occurs in [ls] (0 for a label never voted), lists each voted label
    once, and its counts sum to the number of votes. *)
Theorem ledger_counts_labels (ls : list string) :
  (forall l, votes_get (votes_of ls) l = occurrences l ls) /\
  (forall l, In l (keys (votes_of ls)) <-> In l ls) /\
  List.NoDup (keys (votes_of ls)) /\
  votes_total (votes_of ls) = List.length ls.
Proof.
  split; [apply votes_get_votes_of|]. split; [apply keys_votes_of_In|].
  split; [apply keys_votes_of_NoDup|apply votes_total_votes_of].
Qed.

(** [max_from] is determined by the position of the first maximal key. *)
Lemma max_from_unique {A : Type} (key : A -> nat) (l : list A) (best : A) l1 r l2 :
  best :: l = l1 ++ r :: l2 ->
  (forall x, In x l1 -> key x < key r) ->
  (forall x, In x l2 -> key x <= key r) ->
  max_from key best l = r.
Proof.
  revert best l1 l2. induction l as [|a l IH]; intros best l1 l2 Heq H1 H2.
  - destruct l1 as [|b [|c l1]]; cbn in Heq; try discriminate.
    injection Heq as <- _. reflexivity.
  - cbn [max_from]. destruct l1 as [|b l1]; cbn in Heq.
    + injection Heq as <- <-.
      destruct (Nat.ltb_spec (key best) (key a)) as [Hlt|Hge].
      * specialize (H2 a (or_introl eq_refl)). lia.
      * apply (IH best [] l); [reflexivity|intros x []|].
        intros x Hx. apply H2. right. exact Hx.
    + injection Heq as <- Heq.
      destruct (Nat.ltb_spec (key best) (key a)) as [Hlt|Hge].
      * apply (IH a l1 l2); [exact Heq| |exact H2].
        intros x Hx. apply H1. right. exact Hx.
      * destruct l1 as [|c l1]; cbn in Heq.
        -- injection Heq as <- _. specialize (H1 best (or_introl eq_refl)). lia.
        -- injection Heq as <- Heq. apply (IH best (best :: l1) l2); [cbn; f_equal; exact Heq| |exact H2].
           intros x [<-|Hx]; apply H1; [left; reflexivity|right; right; exact Hx].
Qed.

Lemma type_split t l :
  type t = Ok l ->
  exists l1 l2, keys (predicted_types t) = l1 ++ l :: l2 /\
    (forall x, In x l1 -> votes_get (predicted_types t) x < votes_get (predicted_types t) l) /\
    (forall x, In x l2 -> votes_get (predicted_types t) x <= votes_get (predicted_types t) l).
Proof.
  unfold type. fold (keys (predicted_types t)).
  destruct (keys (predicted_types t)) as [|b K]; [discriminate|]. cbn [py_max].
  intros [= <-]. apply (max_from_first (fun x => votes_get (predicted_types t) x) K b).
Qed.

Lemma type_of_split t l1 l l2 :
  keys (predicted_types t) = l1 ++ l :: l2 ->
  (forall x, In x l1 -> votes_get (predicted_types t) x < votes_get (predicted_types t) l) ->
  (forall x, In x l2 -> votes_get (predicted_types t) x <= votes_get (predicted_types t) l) ->
  type t = Ok l.
Proof.
  intros HK H1 H2. unfold type. fold (keys (predicted_types t)).
  destruct (keys (predicted_types t)) as [|b K] eqn:E; [destruct l1; discriminate|].
  cbn [py_max]. f_equal.
  apply (max_from_unique (fun x => votes_get (predicted_types t) x) K b l1 l l2); assumption.
Qed.

(** X7: one more vote changes the predicted type only to the label voted for:
    after a vote for [l'] the type is [l'] or what it was before, and on a
    record without votes it is [l']. *)
Theorem vote_moves_type_only_to_voted_label (t : TrackedObject) (l' : string) :
  match type t with
  | Ok l =>
      type (with_votes t (votes_incr (predicted_types t) l')) = Ok l \/
      type (with_votes t (votes_incr (predicted_types t) l')) = Ok l'
  | Raise _ => type (with_votes t (votes_incr (predicted_types t) l')) = Ok l'
  end.
Proof.
  destruct (type t) as [l|e] eqn:Ht.
  - set (d := predicted_types t) in *. set (t' := with_votes t (votes_incr d l')).
    assert (Hsome : exists r, type t' = Ok r).
    { unfold type, t'. cbn [predicted_types with_votes].
      destruct (votes_incr d l') as [|[k n] d'] eqn:E; [|cbn; eauto].
      destruct d as [|[k n] d0]; cbn in E; [discriminate|].
      destruct (String.eqb l' k); discriminate. }
    destruct Hsome as [r Hr]. rewrite Hr.
    destruct (string_dec r l') as [->|Hne]; [right; reflexivity|left; f_equal].
    destruct (type_split t' r Hr) as (l1 & l2 & HK & H1 & H2).
    unfold t' in HK, H1, H2. cbn [predicted_types with_votes] in HK, H1, H2.
    assert (Hget : forall x, votes_get d x <= votes_get (votes_incr d l') x)
      by (intros x; rewrite votes_get_incr; lia).
    assert (Hr' : votes_get (votes_incr d l') r = votes_get d r).
    { rewrite votes_get_incr. destruct (String.eqb_spec r l'); [congruence|reflexivity]. }
    assert (Hold : type t = Ok r); [|congruence].
    destruct (in_dec string_dec l' (keys d)) as [Hin|Hnin].
    + rewrite keys_incr_old in HK by assumption.
      apply (type_of_split t l1 r l2 HK); fold d.
      * intros x Hx. specialize (H1 x Hx). specialize (Hget x). lia.
      * intros x Hx. specialize (H2 x Hx). specialize (Hget x). lia.
    + rewrite keys_incr_new in HK by assumption.
      destruct (exists_last (l:=l2)) as [m [z Hm]].
      { intros ->. apply app_inj_tail in HK as [_ Heq]. congruence. }
      subst l2. change (l1 ++ r :: m ++ [z]) with (l1 ++ (r :: m) ++ [z]) in HK.
      rewrite app_assoc in HK. apply app_inj_tail in HK as [HK <-].
      apply (type_of_split t l1 r m HK); fold d.
      * intros x Hx. specialize (H1 x Hx). specialize (Hget x). lia.
      * intros x Hx. specialize (H2 x (in_or_app _ _ _ (or_introl Hx))). specialize (Hget x). lia.
  - unfold type in Ht. destruct (predicted_types t) as [|[k n] d] eqn:E; [|discriminate].
    unfold type. cbn [predicted_types with_votes votes_incr List.map fst py_max max_from].
    reflexivity.
Qed.

(** ** Passes of the loop body *)

Section Passes.
Context (cfg : Settings) (clk : clock).

Lemma len_le_votes t : __len__ t <= votes_total (predicted_types t).
Proof. unfold __len__. destruct (tracked_points t); lia. Qed.

Lemma observed_len_mono frame nms box n t t' n' e :
  observed cfg clk frame nms box n t (t', n', e) -> __len__ t <= __len__ t'.
Proof.
  intros Ho. apply observed_ledger in Ho. destruct e as [e|].
  - destruct Ho as [Hv Hp]. unfold __len__. rewrite Hv, Hp. lia.
  - destruct Ho as (label & _ & Hv & Hp). pose proof (len_le_votes t) as Hle.
    unfold __len__ at 2. rewrite Hp, Hv, votes_total_incr.
    destruct (_ ++ _) eqn:E; [apply app_eq_nil in E as [_ E]; discriminate|lia].
Qed.

Lemma step_len_mono frame nms st ev id t :
  tracked_objects st !! id = Some t ->
  exists t', tracked_objects (fst (step cfg clk frame nms st ev)) !! id = Some t' /\
    __len__ t <= __len__ t'.
Proof.
  intros Ht. destruct ev as [[box k] nm].
  destruct (step_spec cfg clk frame nms st box k nm) as (t' & n' & e & Hobs & ->).
  cbn [fst tracked_objects]. rewrite lookup_insert. case_decide as Hk.
  - subst k. exists t'. split; [reflexivity|].
    pose proof (observe_observed cfg clk frame nms box (now_calls st) (record_at st id)) as Ho.
    rewrite Hobs in Ho. unfold record_at in Ho. rewrite Ht in Ho.
    change (default TrackedObject_init (Some t)) with t in Ho.
    eapply observed_len_mono, Ho.
  - exists t. split; [exact Ht|lia].
Qed.

Lemma run_loop_len_mono frame nms evs st id t :
  tracked_objects st !! id = Some t ->
  exists t', tracked_objects (fst (run_loop cfg clk frame nms st evs)) !! id = Some t' /\
    __len__ t <= __len__ t'.
Proof.
  revert st t. induction evs as [|ev evs IH]; intros st t Ht; cbn [run_loop].
  - exists t. split; [exact Ht|lia].
  - destruct (step_len_mono frame nms st ev id t Ht) as (t1 & Ht1 & Hle1).
    destruct (step cfg clk frame nms st ev) as [st1 [e|]]; cbn [fst] in *.
    + exists t1. auto.
    + destruct (IH st1 t1 Ht1) as (t' & Ht' & Hle). exists t'. split; [exact Ht'|lia].
Qed.

Lemma track_next_frame_len_mono frame results st id t :
  tracked_objects st !! id = Some t ->
  exists t', tracked_objects (fst (track_next_frame cfg clk frame results st)) !! id = Some t' /\
    __len__ t <= __len__ t'.
Proof.
  intros Ht. unfold track_next_frame. destruct (boxes_id results).
  - apply run_loop_len_mono, Ht.
  - exists t. split; [exact Ht|lia].
Qed.

Lemma track_video_raised video st e :
  fold_left (fun acc fr =>
               match acc with
               | (st', None) => track_next_frame cfg clk (fst fr) (snd fr) st'
               | (st', Some e) => (st', Some e)
               end) video (st, Some e) = (st, Some e).
Proof. induction video as [|fr video IH]; cbn [fold_left]; [reflexivity|exact IH]. Qed.

Lemma track_video_cons fr video st :
  track_video cfg clk (fr :: video) st =
  match track_next_frame cfg clk (fst fr) (snd fr) st with
  | (st', None) => track_video cfg clk video st'
  | (st', Some e) => (st', Some e)
  end.
Proof.
  unfold track_video. cbn [fold_left].
  destruct (track_next_frame cfg clk (fst fr) (snd fr) st) as [st' [e|]]; [|reflexivity].
  apply track_video_raised.
Qed.

(** X8: tracking a video in two parts is tracking it whole: the second part
    starts from the state the first one leaves, and it is not looked at
    when the first part raises. *)
Theorem track_video_app (v1 v2 : list (Image * Results)) (st : State) :
  track_video cfg clk (v1 ++ v2) st =
  match track_video cfg clk v1 st with
  | (st', None) => track_video cfg clk v2 st'
  | (st', Some e) => (st', Some e)
  end.
Proof.
  revert st. induction v1 as [|fr v1 IH]; intros st.
  - cbn [app]. unfold track_video at 2. cbn [fold_left]. reflexivity.
  - cbn [app]. rewrite !track_video_cons.
    destruct (track_next_frame cfg clk (fst fr) (snd fr) st) as [st' [e|]]; [reflexivity|].
    apply IH.
Qed.

Lemma track_video_len_mono video st id t :
  tracked_objects st !! id = Some t ->
  exists t', tracked_objects (fst (track_video cfg clk video st)) !! id = Some t' /\
    __len__ t <= __len__ t'.
Proof.
  revert st t. induction video as [|fr video IH]; intros st t Ht.
  - exists t. split; [exact Ht|lia].
  - rewrite track_video_cons.
    destruct (track_next_frame_len_mono (fst fr) (snd fr) st id t Ht) as (t1 & Ht1 & Hle1).
    destruct (track_next_frame cfg clk (fst fr) (snd fr) st) as [st1 [e|]]; cbn [fst] in *.
    + exists t1. auto.
    + destruct (IH st1 t1 Ht1) as (t' & Ht' & Hle). exists t'. split; [exact Ht'|lia].
Qed.

(** X9: a track that [get_objects] returns is returned after any further
    frames, raising or not: the length of a record never decreases. *)
Theorem confirmed_stays_confirmed (video : list (Image * Results)) (st : State) (id : Z)
    (t : TrackedObject) :
  snd (get_objects cfg (tracked_objects st)) !! id = Some t ->
  exists t',
    snd (get_objects cfg (tracked_objects (fst (track_video cfg clk video st)))) !! id = Some t' /\
    __len__ t <= __len__ t'.
Proof.
  intros Hin. rewrite (proj2 (get_objects_lookup cfg _)) in Hin.
  destruct (tracked_objects st !! id) as [t0|] eqn:Ht0; [|discriminate].
  destruct (Nat.ltb_spec (FRAMES_COUNT cfg) (__len__ t0)) as [Hlt|]; [|discriminate].
  injection Hin as <-.
  destruct (track_video_len_mono video st id t0 Ht0) as (t' & Ht' & Hle).
  exists t'. split; [|exact Hle].
  rewrite (proj2 (get_objects_lookup cfg _)), Ht'.
  destruct (Nat.ltb_spec (FRAMES_COUNT cfg) (__len__ t')); [reflexivity|lia].
Qed.

(** X10: in a reachable state a record that holds a snapshot has a length above
    [FRAMES_COUNT], so [get_objects] returns it. *)
Theorem snapshot_implies_confirmed (st : State) (id : Z) (t : TrackedObject) (img : Image) :
  reachable cfg clk st ->
  tracked_objects st !! id = Some t -> cropped_frame t = Some img ->
  FRAMES_COUNT cfg < __len__ t /\
  snd (get_objects cfg (tracked_objects st)) !! id = Some t.
Proof.
  intros Hreach Ht Himg.
  assert (Hlt : FRAMES_COUNT cfg < __len__ t).
  { revert id t img Ht Himg.
    induction Hreach as [|st frame nms [[box k] nm] Hr IH]; intros id t img Ht Himg.
    - cbn in Ht. rewrite lookup_empty in Ht. discriminate.
    - destruct (step_spec cfg clk frame nms st box k nm) as (t' & n' & e & Hobs & Hs).
      rewrite Hs in Ht. cbn [fst tracked_objects] in Ht. rewrite lookup_insert in Ht.
      case_decide as Hk; [|apply (IH id t img Ht Himg)].
      injection Ht as <-.
      pose proof (observe_observed cfg clk frame nms box (now_calls st) (record_at st k)) as Ho.
      rewrite Hobs in Ho. pose proof (observed_len_mono _ _ _ _ _ _ _ _ Ho) as Hmono.
      apply observed_snapshot in Ho.
      destruct (cropped_frame (record_at st k)) as [img0|] eqn:Hold.
      + enough (FRAMES_COUNT cfg < __len__ (record_at st k)) by lia.
        unfold record_at in Hold |- *.
        destruct (tracked_objects st !! k) as [t0|] eqn:E; [|discriminate].
        apply (IH k t0 img0 E Hold).
      + destruct (Nat.ltb_spec (FRAMES_COUNT cfg) (__len__ (record_at st k))); [lia|congruence]. }
  split; [exact Hlt|].
  rewrite (proj2 (get_objects_lookup cfg _)), Ht.
  destruct (Nat.ltb_spec (FRAMES_COUNT cfg) (__len__ t)); [reflexivity|lia].
Qed.

(** X11: in a reachable state the trajectory of a record holds as many points as
    the record has observations, up to [MAX_POINTS + 1]. *)
Theorem trajectory_length (st : State) (id : Z) (t : TrackedObject) :
  reachable cfg clk st -> tracked_objects st !! id = Some t ->
  List.length (tracked_points t) = Nat.min (__len__ t) (S (MAX_POINTS cfg)).
Proof.
  intros Hreach. revert id t.
  induction Hreach as [|st frame nms [[box k] nm] Hr IH]; intros id t Ht.
  - cbn in Ht. rewrite lookup_empty in Ht. discriminate.
  - destruct (step_spec cfg clk frame nms st box k nm) as (t' & n' & e & Hobs & Hs).
    rewrite Hs in Ht. cbn [fst tracked_objects] in Ht. rewrite lookup_insert in Ht.
    case_decide as Hk; [|apply (IH id t Ht)].
    injection Ht as <-.
    pose proof (observe_observed cfg clk frame nms box (now_calls st) (record_at st k)) as Ho.
    rewrite Hobs in Ho.
    destruct (fresh_or_stamped cfg clk st k (reachable_invariant cfg clk st Hr)) as (Hc & _ & _).
    assert (Hold : List.length (tracked_points (record_at st k))
                   = Nat.min (__len__ (record_at st k)) (S (MAX_POINTS cfg))).
    { unfold record_at. destruct (tracked_objects st !! k) as [t0|] eqn:E; [apply (IH k t0 E)|].
      reflexivity. }
    apply consistent_len in Hc.
    apply observed_ledger in Ho. destruct e as [e|].
    + destruct Ho as [Hv Hp]. unfold __len__ in *. rewrite Hv, Hp. exact Hold.
    + destruct Ho as (label & _ & Hv & Hp).
      assert (Hlen' : __len__ t' = S (__len__ (record_at st k))).
      { unfold __len__ at 1. rewrite Hp, Hv, votes_total_incr, <- Hc.
        destruct (_ ++ _) eqn:E; [apply app_eq_nil in E as [_ E]; discriminate|reflexivity]. }
      rewrite Hlen', Hp, length_app. cbn [List.length].
      destruct (Nat.ltb_spec (MAX_POINTS cfg) (List.length (tracked_points (record_at st k))))
        as [Hlt|Hge].
      * destruct (tracked_points (record_at st k)); cbn [List.length tl] in *; lia.
      * lia.
Qed.

End Passes.

(** ** What a pass touches *)

Section Touch.
Context (cfg : Settings) (clk : clock).

Lemma step_other frame nms st box id nm k :
  k <> id ->
  tracked_objects (fst (step cfg clk frame nms st (box, id, nm))) !! k = tracked_objects st !! k.
Proof.
  intros Hk. destruct (step_spec cfg clk frame nms st box id nm) as (t' & n' & e & _ & ->).
  cbn [fst tracked_objects]. apply lookup_insert_ne. congruence.
Qed.

Lemma run_loop_other frame nms evs st k :
  ~ In k (List.map ev_id evs) ->
  tracked_objects (fst (run_loop cfg clk frame nms st evs)) !! k = tracked_objects st !! k.
Proof.
  revert st. induction evs as [|[[box id] nm] evs IH]; intros st Hk; cbn [run_loop]; [reflexivity|].
  cbn [List.map ev_id fst snd] in Hk.
  pose proof (step_other frame nms st box id nm k) as Hstep.
  destruct (step cfg clk frame nms st (box, id, nm)) as [st1 [e|]]; cbn [fst] in *.
  - apply Hstep. intros ->. apply Hk. left. reflexivity.
  - rewrite IH by (intros H; apply Hk; right; exact H).
    apply Hstep. intros ->. apply Hk. left. reflexivity.
Qed.

Lemma zip3_ids_In {C : Type} (bs : list Box) (ids : list Z) (c : list C) k :
  In k (List.map (fun ev => snd (fst ev)) (zip3 bs ids c)) -> In k ids.
Proof.
  revert ids c. induction bs as [|b bs IH]; intros [|i ids] [|x c]; cbn; try tauto.
  intros [H|H]; [left; exact H|right; eapply IH; exact H].
Qed.

(** X12: a frame changes only the records of the identities it carries: the
    record of any other identity, present or not, is as it was, also when
    the frame raises. *)
Theorem track_next_frame_other_identities (frame : Image) (results : Results) (st : State)
    (id : Z) :
  (forall ids, boxes_id results = Some ids -> ~ In id ids) ->
  tracked_objects (fst (track_next_frame cfg clk frame results st)) !! id
  = tracked_objects st !! id.
Proof.
  intros Hid. unfold track_next_frame. destruct (boxes_id results) as [ids|]; [|reflexivity].
  apply run_loop_other. intros Hin. apply (Hid ids eq_refl).
  eapply zip3_ids_In. exact Hin.
Qed.

Lemma names_get_raises nms i e : names_get nms i = Raise e -> e = KeyError.
Proof.
  induction nms as [|[j s] nms IH]; cbn; [intros [= <-]; reflexivity|].
  destruct (Nat.eqb i j); [discriminate|exact IH].
Qed.

(** X13: a pass that raises records no vote and no point, for any identity; the
    exception is the [ValueError] or [OverflowError] of the crop or the
    [KeyError] of a class without a name. *)
Theorem raising_pass_records_nothing (frame : Image) (nms : list (nat * string)) (st st' : State)
    (box : Box) (id : Z) (nm : nat * string) (e : exn) :
  step cfg clk frame nms st (box, id, nm) = (st', Some e) ->
  (e = ValueError \/ e = OverflowError \/ e = KeyError) /\
  forall k,
    predicted_types (record_at st' k) = predicted_types (record_at st k) /\
    tracked_points (record_at st' k) = tracked_points (record_at st k).
Proof.
  intros Hstep.
  destruct (step_spec cfg clk frame nms st box id nm) as (t' & n' & e' & Hobs & Hs).
  rewrite Hs in Hstep. injection Hstep as <- ->.
  pose proof (observe_observed cfg clk frame nms box (now_calls st) (record_at st id)) as Ho.
  rewrite Hobs in Ho. split.
  - inversion Ho as [e0 Hc|t2 e0 Hc Hn|]; subst.
    + destruct (capture_cases cfg frame box (fst (detect clk (now_calls st) (record_at st id))))
        as [[Hok _]|(_ & _ & [(img' & _ & Hok)|(e' & Hcrop & Hraise)])]; try congruence.
      rewrite Hraise in Hc. injection Hc as <-.
      destruct (crop_image_raises frame (xywhn box) e' Hcrop); auto.
    + right. right. eapply names_get_raises, Hn.
  - apply observed_ledger in Ho. destruct Ho as [Hv Hp].
    intros k. unfold record_at at 1 3. cbn [tracked_objects]. rewrite lookup_insert.
    case_decide as Hk; [subst k; auto|]. split; reflexivity.
Qed.

(** X14: every pass, raising or not, reads the clock once, or twice on the first
    pass of a record, and leaves the last reading in [last_detection]. *)
Theorem pass_refreshes_last_detection (frame : Image) (nms : list (nat * string)) (st : State)
    (box : Box) (id : Z) (nm : nat * string) :
  now_calls (fst (step cfg clk frame nms st (box, id, nm)))
  = now_calls st + match first_detection (record_at st id) with Some _ => 1 | None => 2 end /\
  last_detection (record_at (fst (step cfg clk frame nms st (box, id, nm))) id)
  = Some (strftime (clk (now_calls (fst (step cfg clk frame nms st (box, id, nm))) - 1))).
Proof.
  destruct (step_spec cfg clk frame nms st box id nm) as (t' & n' & e & Hobs & ->).
  pose proof (observe_observed cfg clk frame nms box (now_calls st) (record_at st id)) as Ho.
  rewrite Hobs in Ho. destruct (observed_stamps _ _ _ _ _ _ _ _ _ _ Ho) as (-> & _ & Hl).
  cbn [fst now_calls].
  assert (Hrec : record_at {| tracked_objects := <[id := t']> (tracked_objects st);
                              now_calls := snd (detect clk (now_calls st) (record_at st id)) |} id
                 = t').
  { unfold record_at. cbn [tracked_objects]. rewrite lookup_insert_eq. reflexivity. }
  rewrite Hrec, Hl.
  unfold detect. destruct (first_detection (record_at st id)); cbn [fst snd last_detection].
  - split; [lia|]. repeat f_equal; lia.
  - split; [lia|]. repeat f_equal; lia.
Qed.

Lemma zip3_firstn {A B C : Type} (a : list A) (b : list B) (c : list C) :
  zip3 a b c = zip3 (firstn (List.length c) a) (firstn (List.length c) b) c.
Proof.
  revert b c. induction a as [|x a IH]; intros [|y b] [|z c]; cbn; try reflexivity.
  f_equal. apply IH.
Qed.

(** X15: the loop zips the boxes with the class names, so it never passes over
    more boxes than the detector knows classes: the boxes and track ids
    from position [len(names)] on are ignored. *)
Theorem track_next_frame_ignores_beyond_names (frame : Image) (results : Results) (st : State) :
  track_next_frame cfg clk frame results st
  = track_next_frame cfg clk frame
      (truncate_results (List.length (names results)) results) st.
Proof.
  unfold track_next_frame, truncate_results. cbn [boxes boxes_id names].
  destruct (boxes_id results) as [ids|]; cbn [option_map]; [|reflexivity].
  rewrite <- zip3_firstn. reflexivity.
Qed.

End Touch.

(** ** Printing *)

Lemma len_pos_fields t :
  0 < __len__ t ->
  (exists p pts, tracked_points t = p :: pts) /\ exists ty, type t = Ok ty.
Proof.
  unfold __len__, type. destruct (tracked_points t) as [|p pts]; [lia|]. intros Hpos.
  split; [eauto|]. destruct (predicted_types t) as [|[k n] d]; cbn in *; [lia|eauto].
Qed.

(** X16: every record returned by [get_objects] can be printed: [type] returns
    a label, and [__repr__] and [__str__] return their strings, the count
    in [__str__] being the number of points of the trajectory. *)
Theorem confirmed_records_print (cast : pyfloat -> Z) (cfg : Settings)
    (d : gmap Z TrackedObject) (id : Z) (t : TrackedObject) :
  snd (get_objects cfg d) !! id = Some t ->
  exists ty,
    type t = Ok ty /\
    __repr__ t = Ok ("TrackedObject<" +:+ ty +:+ ">") /\
    __str__ cast t
    = Ok ("(" +:+ str_of_field (first_detection t) +:+ ") - (" +:+
          str_of_field (last_detection t) +:+ "): " +:+ ty +:+
          "(count=" +:+ pretty (List.length (tracked_points t)) +:+ ") ").
Proof.
  intros Hin. rewrite (proj2 (get_objects_lookup cfg d)) in Hin.
  destruct (d !! id) as [t0|]; [|discriminate].
  destruct (Nat.ltb_spec (FRAMES_COUNT cfg) (__len__ t0)) as [Hlt|]; [|discriminate].
  injection Hin as <-.
  destruct (len_pos_fields t0) as [(p & pts & Hp) [ty Hty]]; [lia|].
  exists ty. split; [exact Hty|]. unfold __repr__, __str__, points. rewrite Hty, Hp.
  cbn [mbind result_bind]. rewrite length_map. split; reflexivity.
Qed.

(** X17: [__repr__] and [__str__] raise [ValueError] on a record without
    votes, as a fresh one is, and [__str__] raises it on a record without
    points. *)
Theorem empty_records_do_not_print (cast : pyfloat -> Z) (t : TrackedObject) :
  (predicted_types t = [] -> __repr__ t = Raise ValueError /\ __str__ cast t = Raise ValueError) /\
  (tracked_points t = [] -> __str__ cast t = Raise ValueError).
Proof.
  split.
  - intros Hv. unfold __repr__, __str__, type. rewrite Hv. split; reflexivity.
  - intros Hp. unfold __str__, points, type. rewrite Hp.
    destruct (predicted_types t) as [|[k n] d]; reflexivity.
Qed.

(** ** The first pass of an identity *)

(** X18: the first pass for an identity whose class has a name never raises,
    whatever the box: the gate is closed, so the box is not cropped.  It
    leaves a record with the event's point, one vote for its label, two
    successive readings of the clock and no snapshot. *)
Theorem first_pass_creates_record (cfg : Settings) (clk : clock) (frame : Image)
    (nms : list (nat * string)) (st : State) (box : Box) (id : Z) (nm : nat * string)
    (label : string) :
  tracked_objects st !! id = None ->
  names_get nms (cls box) = Ok label ->
  step cfg clk frame nms st (box, id, nm)
  = ({| tracked_objects :=
          <[id := {| tracked_points := [(fst (fst (fst (xywh box))), snd (fst (fst (xywh box))))];
                     predicted_types := [(label, 1)];
                     first_detection := Some (strftime (clk (now_calls st)));
                     last_detection := Some (strftime (clk (S (now_calls st))));
                     cropped_frame := None |}]> (tracked_objects st);
        now_calls := S (S (now_calls st)) |}, None).
Proof.
  intros Hnone Hlabel.
  destruct (step_spec cfg clk frame nms st box id nm) as (t' & n' & e & Hobs & ->).
  unfold record_at in Hobs. rewrite Hnone in Hobs.
  change (default TrackedObject_init None) with TrackedObject_init in Hobs.
  unfold observe in Hobs. destruct (xywh box) as [[[x y] w] h].
  cbn [detect TrackedObject_init first_detection] in Hobs.
  unfold capture, __len__ in Hobs.
  cbn [cropped_frame tracked_points TrackedObject_init] in Hobs.
  replace (FRAMES_COUNT cfg <? 0) with false in Hobs by (symmetry; apply Nat.ltb_ge; lia).
  rewrite Hlabel in Hobs.
  cbn [with_votes predicted_types tracked_points votes_incr] in Hobs.
  unfold points_append in Hobs. cbn [List.length] in Hobs.
  replace (MAX_POINTS cfg <? 0) with false in Hobs by (symmetry; apply Nat.ltb_ge; lia).
  cbn in Hobs. injection Hobs as <- <- <-. reflexivity.
Qed.

(** ** Instances *)

Lemma after_frames_reachable k : reachable default_settings clock_steady (after_frames k).
Proof. apply track_video_reachable, reachable_init. Qed.

Lemma crop_image_raises_iff_not_finite_witness :
  ((exists img, crop_image_with_bbox (blank 100 100 7) (NaN, dec 1 2, dec 1 10, dec 1 10) = Ok img)
   <-> bbox_finite (NaN, dec 1 2, dec 1 10, dec 1 10)) /\
  (forall e, crop_image_with_bbox (blank 100 100 7) (NaN, dec 1 2, dec 1 10, dec 1 10) = Raise e ->
             e = ValueError \/ e = OverflowError).
Proof.
  refine (crop_image_raises_iff_not_finite (blank 100 100 7) (NaN, dec 1 2, dec 1 10, dec 1 10)
            _ _ _).
  - cbn. unfold dec, Qle. cbn. lia.
  - cbn. lia.
  - cbn. lia.
Defined.

Lemma crop_image_well_formed_witness :
  well_formed {| height := 0; width := 0; pixels := [] |} /\
  height {| height := 0; width := 0; pixels := [] |} <= height (blank 100 100 7) /\
  width {| height := 0; width := 0; pixels := [] |} <= width (blank 100 100 7).
Proof.
  refine (crop_image_well_formed (blank 100 100 7) corner_bbox
            {| height := 0; width := 0; pixels := [] |} (blank_well_formed 100 100 7) _).
  vm_compute. reflexivity.
Defined.

Lemma crop_image_inside_frame_witness :
  exists (x y x1 y1 : Z) (img : Image),
    crop_rect (height (blank 100 100 7)) (width (blank 100 100 7)) (xywhn car_box)
    = Ok (x, y, x1, y1) /\
    crop_image_with_bbox (blank 100 100 7) (xywhn car_box) = Ok img /\
    height img = Z.to_nat (y1 - y) /\ width img = Z.to_nat (x1 - x) /\
    forall i j, i < height img -> j < width img ->
      pixel_at img i j = pixel_at (blank 100 100 7) (Z.to_nat y + i) (Z.to_nat x + j).
Proof.
  refine (crop_image_inside_frame (blank 100 100 7) (xywhn car_box)
            (blank_well_formed 100 100 7) _ _).
  - cbn. unfold in_unit, dec, Qle; cbn. lia.
  - cbn. unfold box_inside, dec, Qle; cbn. lia.
Defined.

Lemma confirmed_stays_confirmed_witness :
  exists t',
    snd (get_objects default_settings
           (tracked_objects
              (fst (track_video default_settings clock_steady (car_video 2) (after_frames 11)))))
      !! 1%Z = Some t' /\
    __len__ (record_at (after_frames 11) 1) <= __len__ t'.
Proof.
  refine (confirmed_stays_confirmed default_settings clock_steady (car_video 2)
            (after_frames 11) 1%Z (record_at (after_frames 11) 1) _).
  vm_compute. reflexivity.
Defined.

Lemma snapshot_implies_confirmed_witness :
  FRAMES_COUNT default_settings < __len__ (record_at (after_frames 12) 1) /\
  snd (get_objects default_settings (tracked_objects (after_frames 12))) !! 1%Z
  = Some (record_at (after_frames 12) 1).
Proof.
  refine (snapshot_implies_confirmed default_settings clock_steady (after_frames 12) 1%Z
            (record_at (after_frames 12) 1) (blank 10 10 7) (after_frames_reachable 12) _ _);
    vm_compute; reflexivity.
Defined.

Lemma trajectory_length_witness :
  List.length (tracked_points (record_at (after_frames 3) 1))
  = Nat.min (__len__ (record_at (after_frames 3) 1)) (S (MAX_POINTS default_settings)).
Proof.
  refine (trajectory_length default_settings clock_steady (after_frames 3) 1%Z
            (record_at (after_frames 3) 1) (after_frames_reachable 3) _).
  vm_compute. reflexivity.
Defined.

Lemma track_next_frame_other_identities_witness :
  tracked_objects
    (fst (track_next_frame default_settings clock_steady (blank 100 100 7) one_car
            (after_frames 3))) !! 2%Z
  = tracked_objects (after_frames 3) !! 2%Z.
Proof.
  refine (track_next_frame_other_identities default_settings clock_steady (blank 100 100 7)
            one_car (after_frames 3) 2%Z _).
  intros ids Hids. injection Hids as <-. intros [H|[]]. discriminate.
Defined.

Lemma raising_pass_records_nothing_witness :
  (KeyError = ValueError \/ KeyError = OverflowError \/ KeyError = KeyError) /\
  forall k,
    predicted_types
      (record_at (fst (step default_settings clock_steady (blank 100 100 7) class_names
                         (after_frames 3) (unnamed_box, 1%Z, (0, "person")))) k)
    = predicted_types (record_at (after_frames 3) k) /\
    tracked_points
      (record_at (fst (step default_settings clock_steady (blank 100 100 7) class_names
                         (after_frames 3) (unnamed_box, 1%Z, (0, "person")))) k)
    = tracked_points (record_at (after_frames 3) k).
Proof.
  refine (raising_pass_records_nothing default_settings clock_steady (blank 100 100 7)
            class_names (after_frames 3) _ unnamed_box 1%Z (0, "person") KeyError _).
  vm_compute. reflexivity.
Defined.

Lemma confirmed_records_print_witness :
  exists ty,
    type (record_at (after_frames 11) 1) = Ok ty /\
    __repr__ (record_at (after_frames 11) 1) = Ok ("TrackedObject<" +:+ ty +:+ ">") /\
    __str__ cast_trunc (record_at (after_frames 11) 1)
    = Ok ("(" +:+ str_of_field (first_detection (record_at (after_frames 11) 1)) +:+ ") - (" +:+
          str_of_field (last_detection (record_at (after_frames 11) 1)) +:+ "): " +:+ ty +:+
          "(count=" +:+ pretty (List.length (tracked_points (record_at (after_frames 11) 1)))
          +:+ ") ").
Proof.
  refine (confirmed_records_print cast_trunc default_settings
            (tracked_objects (after_frames 11)) 1%Z (record_at (after_frames 11) 1) _).
  vm_compute. reflexivity.
Defined.

Example str_after_eleven_frames :
  __str__ cast_trunc (record_at (after_frames 11) 1)
  = Ok "(03.11.2026 10:30:00) - (03.11.2026 10:30:11): car(count=11) ".
Proof. vm_compute. reflexivity. Qed.

Lemma first_pass_creates_record_witness :
  step default_settings clock_steady (blank 100 100 7) class_names Tracker_init
    (car_box, 1%Z, (0, "person"))
  = ({| tracked_objects :=
          <[1%Z := {| tracked_points := [(dec 50 1, dec 50 1)];
                      predicted_types := [("car", 1)];
                      first_detection := Some (strftime (clock_steady 0));
                      last_detection := Some (strftime (clock_steady 1));
                      cropped_frame := None |}]> ∅;
        now_calls := 2 |}, None).
Proof.
  refine (first_pass_creates_record default_settings clock_steady (blank 100 100 7) class_names
            Tracker_init car_box 1%Z (0, "person") "car" _ _); reflexivity.
Defined.

Lemma step_snapshot_witness :
  match cropped_frame (record_at (after_frames 11) 1) with
  | Some img =>
      cropped_frame
        (record_at (fst (step default_settings clock_steady (blank 100 100 7) class_names
                           (after_frames 11) (car_box, 1%Z, (0, "person")))) 1) = Some img
  | None =>
      if FRAMES_COUNT default_settings <? __len__ (record_at (after_frames 11) 1)
      then exists img,
          crop_image_with_bbox (blank 100 100 7) (xywhn car_box) = Ok img /\
          cropped_frame
            (record_at (fst (step default_settings clock_steady (blank 100 100 7) class_names
                               (after_frames 11) (car_box, 1%Z, (0, "person")))) 1) = Some img
      else cropped_frame
             (record_at (fst (step default_settings clock_steady (blank 100 100 7) class_names
                                (after_frames 11) (car_box, 1%Z, (0, "person")))) 1) = None
  end.
Proof.
  refine (step_snapshot default_settings clock_steady (blank 100 100 7) class_names
            (after_frames 11) car_box 1%Z (0, "person") _ _).
  vm_compute. reflexivity.
Defined.
